(** * ToolCreationTool: the tool catalog manager (toolManager.js)

    A shallow embedding of the [ToolManager] class: the vector store, the
    completion client, [uuidv4] and [JSON.parse] are external collaborators
    and appear as fields of one record of externals; every method of the
    class is a function in a small state-and-exception monad. Its third
    outcome is there for a callee that never answers, where a method body
    is run on an arbitrary first step; the methods of the class always end, the mutual recursion of [_getOrCreateCollection]
    and [ensureToolCreationTool] in the engine's [RangeError]. *)

From Stdlib Require Import ZArith QArith.QArith_base Ascii String.
From stdpp Require Import base option list gmap strings.

Set Warnings "-register-all".

Local Open Scope string_scope.
Local Open Scope Z_scope.

(** ** Text: the string primitives the class relies on

    Strings are sequences of 8-bit code units; the characters above 255
    that JavaScript also counts as white space are outside the model. *)
Module Text.

Definition is_space (c : ascii) : bool :=
  match c with
  | "009" | "010" | "011" | "012" | "013" | " " | "160" => true
  | _ => false
  end%char.

Fixpoint all_space (s : string) : bool :=
  match s with
  | EmptyString => true
  | String c s' => is_space c && all_space s'
  end.

(** [strip_prefix p s] is the rest of [s] after its prefix [p]. *)
Fixpoint strip_prefix (p s : string) : option string :=
  match p with
  | EmptyString => Some s
  | String a p' =>
      match s with
      | String b s' => if Ascii.eqb a b then strip_prefix p' s' else None
      | EmptyString => None
      end
  end.

(** [String.prototype.startsWith], [endsWith] and [includes]. *)
Definition startsWith (s p : string) : bool :=
  match strip_prefix p s with Some _ => true | None => false end.

Definition endsWith (s p : string) : bool :=
  startsWith (String.rev s) (String.rev p).

Fixpoint includes (s p : string) : bool :=
  match strip_prefix p s with
  | Some _ => true
  | None =>
      match s with
      | EmptyString => false
      | String _ s' => includes s' p
      end
  end.

(** [String.prototype.trim]. *)
Fixpoint trimStart (s : string) : string :=
  match s with
  | String c s' => if is_space c then trimStart s' else s
  | EmptyString => s
  end.

Definition trim (s : string) : string :=
  String.rev (trimStart (String.rev (trimStart s))).

(** *** The extraction pattern

    [rawResponse.match(/```json\s*([\s\S]*?)\s*```/)], read off the
    pattern left to right with the backtracking order of the engine:
    the leftmost start wins, the first [\s*] is greedy, the capture is
    lazy. The result is capture group 1. *)
Definition fence : string := "```".
Definition fence_open : string := "```json".

(** The tail [\s*```] anchored at the head of [s]. *)
Fixpoint closes (s : string) : bool :=
  match strip_prefix fence s with
  | Some _ => true
  | None =>
      match s with
      | String c s' => if is_space c then closes s' else false
      | EmptyString => false
      end
  end.

(** [([\s\S]*?)\s*```]: the shortest capture after which the tail matches. *)
Fixpoint lazy_capture (s : string) : option string :=
  if closes s then Some EmptyString
  else match s with
       | String c s' => String c <$> lazy_capture s'
       | EmptyString => None
       end.

(** [\s*([\s\S]*?)\s*```]: white space is consumed as long as possible and
    given back one character at a time when the rest fails. *)
Fixpoint after_open (s : string) : option string :=
  match s with
  | String c s' =>
      if is_space c
      then match after_open s' with
           | Some r => Some r
           | None => lazy_capture s
           end
      else lazy_capture s
  | EmptyString => lazy_capture s
  end.

Definition match_here (s : string) : option string :=
  match strip_prefix fence_open s with
  | Some rest => after_open rest
  | None => None
  end.

(** The unanchored search; [None] is the [null] of [String.match]. *)
Fixpoint match_json_fence (s : string) : option string :=
  match match_here s with
  | Some r => Some r
  | None =>
      match s with
      | String _ s' => match_json_fence s'
      | EmptyString => None
      end
  end.

End Text.

(** ** JavaScript values

    What [JSON.parse] produces and what the store keeps as metadata. A
    finite number is a rational; its sign and size play no role here. *)
Inductive value : Type :=
  | VUndefined
  | VNull
  | VBool (b : bool)
  | VNum (q : Q)
  | VStr (s : string)
  | VArr (items : list value)
  | VObj (fields : list (string * value)).

(** A plain object: its own properties, in insertion order. *)
Abbreviation obj := (list (string * value)).

Definition truthy (v : value) : bool :=
  match v with
  | VUndefined | VNull => false
  | VBool b => b
  | VNum q => match Qnum q with Z0 => false | _ => true end
  | VStr s => match s with EmptyString => false | _ => true end
  | VArr _ | VObj _ => true
  end.

(** [o.k]: [undefined] when the property is absent. *)
Fixpoint get_field (o : obj) (k : string) : value :=
  match o with
  | [] => VUndefined
  | (k', v) :: rest => if String.eqb k' k then v else get_field rest k
  end.

(** [o.k = v]: overwrite in place, or add the property at the end. *)
Fixpoint set_field (o : obj) (k : string) (v : value) : obj :=
  match o with
  | [] => [(k, v)]
  | (k', v') :: rest =>
      if String.eqb k' k then (k', v) :: rest
      else (k', v') :: set_field rest k v
  end.

(** [v.k] on any value that is neither [null] nor [undefined]: primitives
    and arrays have none of the properties this class reads. *)
Definition prop (v : value) (k : string) : value :=
  match v with
  | VObj o => get_field o k
  | _ => VUndefined
  end.

(** [typeof v === 'object'] *)
Definition typeof_object (v : value) : bool :=
  match v with
  | VNull | VArr _ | VObj _ => true
  | _ => false
  end.

(** [v === s] for a string [s]. *)
Definition strict_eq_str (v : value) (s : string) : bool :=
  match v with
  | VStr s' => String.eqb s' s
  | _ => false
  end.

(** The comparison of [Set.prototype.has]. Objects and arrays compare by
    reference, and every object met here was deserialised on its own. *)
Definition same_value_zero (a b : value) : bool :=
  match a, b with
  | VUndefined, VUndefined => true
  | VNull, VNull => true
  | VBool x, VBool y => Bool.eqb x y
  | VNum x, VNum y => Qeq_bool x y
  | VStr x, VStr y => String.eqb x y
  | _, _ => false
  end.

(** [l.slice(0, e)] *)
Definition slice0 {A : Type} (l : list A) (e : Z) : list A :=
  let len := Z.of_nat (length l) in
  let k := if e <? 0 then Z.max (len + e) 0 else Z.min e len in
  take (Z.to_nat k) l.

(** ** Configuration and the core tool definition *)
Definition COLLECTION_NAME : string := "agent_tools".
Definition TOOL_CREATION_TOOL_ID : string := "core_create_tool_001".

Definition dquote : string := String (ascii_of_nat 34) EmptyString.

Definition TOOL_CREATION_TOOL_DEF : obj :=
  [ ("id", VStr TOOL_CREATION_TOOL_ID);
    ("name", VStr "create_new_tool");
    ("description", VStr "Creates a definition for a new tool based on a natural language description of the desired functionality. It generates the tool name, description, and JSON parameter schema.");
    ("parameters", VObj
      [ ("type", VStr "object");
        ("properties", VObj
          [ ("task_description", VObj
              [ ("type", VStr "string");
                ("description", VStr "A detailed natural language description of what the new tool should do, its purpose, and any specific inputs it should take.") ]);
            ("suggested_name", VObj
              [ ("type", VStr "string");
                ("description", VStr ("Optional: A suggested base name for the tool (e.g., " +:+ dquote +:+ "get_weather" +:+ dquote +:+ "). The LLM might refine it.")) ]) ]);
        ("required", VArr [VStr "task_description"]) ]);
    ("type", VStr "core") ].

(** ** The world the manager runs in *)

(** One record of the collection: the full definition as metadata and the
    text that was embedded. *)
Record entry : Type := Entry { metadata : obj; document : string }.

(** The prompt of [executeToolCreation] is a fixed template; only the task
    description and the optional name suggestion vary. *)
Record prompt : Type := Prompt { task : string; hint : option string }.

(** Calls that leave the process, in the order they were made. *)
Inductive call : Type :=
  | CConnect (name : string)
  | CGet (id : string)
  | CUpsert (id : value) (doc : string)
  | CQuery (text : string) (nResults : Z)
  | CCompletion (model : string) (p : prompt)
  | CUuid.

Inductive level : Type := LOG | WARN | ERROR.

Record state : Type := State {
  collection : option string;        (* this.collection *)
  llmClient : option string;         (* this.llmClient, with its model name *)
  catalog : gmap string entry;       (* the records of the collection *)
  trace : list call;
  console : list (level * string)
}.

Definition with_collection (c : option string) (s : state) : state :=
  State c (llmClient s) (catalog s) (trace s) (console s).
Definition with_catalog (m : gmap string entry) (s : state) : state :=
  State (collection s) (llmClient s) m (trace s) (console s).
Definition push_call (c : call) (s : state) : state :=
  State (collection s) (llmClient s) (catalog s) (trace s ++ [c]) (console s).
Definition push_log (lv : level) (msg : string) (s : state) : state :=
  State (collection s) (llmClient s) (catalog s) (trace s) (console s ++ [(lv, msg)]).

(** What the class does not control. External calls are numbered by their
    position in the trace; [fault n] is the message of the error the
    [n]-th one raises, if it fails. *)
Record externals : Type := Externals {
  embedder : option string;                          (* OPENAI_API_KEY *)
  fault : nat -> option string;
  nearest : string -> gmap string entry -> Z -> list obj;
  completion : string -> prompt -> option string;    (* choices[0]?.message?.content *)
  uuidv4 : nat -> string;
  JSON_parse : string -> string + value;
  JSON_stringify : value -> string;
  String_of : value -> string                        (* a value inside a template literal *)
}.

(** ** Outcomes and the monad of the methods *)
Inductive outcome (A : Type) : Type :=
  | Ret (a : A) (s : state)
  | Throw (msg : string) (s : state)
  | Diverge.
Arguments Ret {A} a s.
Arguments Throw {A} msg s.
Arguments Diverge {A}.

Definition M (A : Type) : Type := state -> outcome A.

Definition ret {A} (a : A) : M A := fun s => Ret a s.
Definition throw {A} (msg : string) : M A := fun s => Throw msg s.
Definition diverge {A} : M A := fun _ => Diverge.
Definition bind {A B} (m : M A) (k : A -> M B) : M B :=
  fun s => match m s with
           | Ret a s' => k a s'
           | Throw msg s' => Throw msg s'
           | Diverge => Diverge
           end.
Definition try_catch {A} (m : M A) (handler : string -> M A) : M A :=
  fun s => match m s with
           | Throw msg s' => handler msg s'
           | o => o
           end.
Definition log (lv : level) (msg : string) : M unit :=
  fun s => Ret tt (push_log lv msg s).
Definition read {A} (f : state -> A) : M A := fun s => Ret (f s) s.

Notation "'await' x <- m ; k" := (bind m (fun x => k))
  (at level 10, x name, m at level 100, k at level 200).
Notation "'run' m ; k" := (bind m (fun _ => k))
  (at level 10, m at level 100, k at level 200).

Definition returned {A} (o : outcome A) : bool :=
  match o with Ret _ _ => true | _ => false end.
Definition thrown {A} (o : outcome A) : bool :=
  match o with Throw _ _ => true | _ => false end.

(** The message of the [RangeError] raised when the stack is full. *)
Definition stack_overflow : string := "Maximum call stack size exceeded".

(** ** The class [ToolManager] *)
Section ToolManager.

Variable X : externals.

(** *** The collaborators' calls *)

(** An external call is added to the trace and fails when the fault
    schedule says so. *)
Definition external {A} (c : call) (m : M A) : M A :=
  fun s =>
    match fault X (length (trace s)) with
    | Some msg => Throw msg (push_call c s)
    | None => m (push_call c s)
    end.

(** [chromaClient.getOrCreateCollection({ name, embeddingFunction, metadata })] *)
Definition chroma_getOrCreateCollection (name : string) : M string :=
  external (CConnect name) (ret name).

(** The answer of [collection.get]: two parallel arrays. *)
Record get_result : Type := GetResult { ids : list string; metadatas : list obj }.

(** [collection.get({ ids: [id] })] *)
Definition collection_get (id : string) : M get_result :=
  external (CGet id)
    (fun s => match catalog s !! id with
              | Some e => Ret (GetResult [id] [metadata e]) s
              | None => Ret (GetResult [] []) s
              end).

(** [collection.upsert({ ids: [id], metadatas: [meta], documents: [doc] })];
    the interface takes string ids and refuses anything else. *)
Definition collection_upsert (id : value) (meta : obj) (doc : string) : M unit :=
  external (CUpsert id doc)
    (fun s => match id with
              | VStr k => Ret tt (with_catalog (<[k := Entry meta doc]> (catalog s)) s)
              | _ => Throw "Expected ids to be strings" s
              end).

(** [collection.query({ queryTexts: [text], nResults })]: one inner array
    of metadata per query text. *)
Definition collection_query (text : string) (nResults : Z) : M (list (list obj)) :=
  external (CQuery text nResults)
    (fun s => Ret [nearest X text (catalog s) nResults] s).

(** [llmClient.chat.completions.create(...)], then
    [response.choices[0]?.message?.content]. *)
Definition chat_completion (model : string) (p : prompt) : M (option string) :=
  external (CCompletion model p) (ret (completion X model p)).

Definition new_uuid : M string :=
  fun s => Ret (uuidv4 X (length (trace s))) (push_call CUuid s).

(** A value interpolated in a template literal. *)
Definition interpolate (v : value) : string :=
  match v with
  | VStr s => s
  | _ => String_of X v
  end.

(** *** The constructor *)
Definition constructor (client : option string) (store : gmap string entry) : state :=
  State None client store []
    (match embedder X with
     | None => [(WARN, "Warning: OpenAI API Key not found. Embeddings and ChromaDB operations requiring embeddings will fail. Set OPENAI_API_KEY environment variable.")]
     | Some _ => []
     end).

(** *** Method bodies

    A method reaches its siblings through [this]; each body below takes
    the sibling it awaits first, [this._getOrCreateCollection()], as the
    argument [init]. The class itself ties the bodies together further
    down. *)

Definition _getOrCreateCollection_body (ensure : M unit) : M (option string) :=
  run (fun s =>
         match collection s with
         | Some _ => Ret tt s
         | None =>
             match embedder X with
             | None => Throw "Cannot create collection without an embedding function. Ensure OPENAI_API_KEY is set." s
             | Some _ =>
                 try_catch
                   (await c <- chroma_getOrCreateCollection COLLECTION_NAME ;
                    run (fun s' => Ret tt (with_collection (Some c) s')) ;
                    log LOG ("Connected to ChromaDB collection: " +:+ COLLECTION_NAME))
                   (fun error =>
                      run log ERROR ("Error connecting to ChromaDB: " +:+ error) ;
                      throw "Could not connect to or create ChromaDB collection.")
                   s
             end
         end) ;
  run ensure ;
  read collection.

(** The first lines of [addTool]: an id and a type are filled in only
    where the definition has none. *)
Definition assign_defaults (toolDefinition : obj) (isCore : bool) : M obj :=
  await d1 <- (if truthy (get_field toolDefinition "id") then ret toolDefinition
               else await u <- new_uuid ;
                    ret (set_field toolDefinition "id" (VStr u))) ;
  ret (if truthy (get_field d1 "type") then d1
       else set_field d1 "type" (VStr (if isCore then "core" else "llm_generated"))).

Definition embedding_text (d : obj) : string :=
  interpolate (get_field d "name") +:+ ": " +:+ interpolate (get_field d "description").

(** The [try] block of [addTool]. *)
Definition store_tool (d : obj) : M obj :=
  try_catch
    (run collection_upsert (get_field d "id") d (embedding_text d) ;
     run log LOG ("Tool '" +:+ interpolate (get_field d "name") +:+ "' (ID: "
                  +:+ interpolate (get_field d "id") +:+ ") added/updated in RAG.") ;
     ret d)
    (fun error =>
       run log ERROR ("Error adding/updating tool '" +:+ interpolate (get_field d "name")
                      +:+ "' to ChromaDB: " +:+ error) ;
       throw error).

Definition addTool_body (init : M (option string))
    (toolDefinition : obj) (isCore : bool) : M obj :=
  await d <- assign_defaults toolDefinition isCore ;
  await _collection <- init ;
  store_tool d.

Definition ensureToolCreationTool_body (init : M (option string))
    (addTool : obj -> bool -> M obj) : M unit :=
  await _collection <- init ;
  try_catch
    (await existing <- collection_get TOOL_CREATION_TOOL_ID ;
     if (length (ids existing) =? 0)%nat
     then run log LOG "Core tool 'create_new_tool' not found. Adding it." ;
          run addTool TOOL_CREATION_TOOL_DEF true ;
          ret tt
     else ret tt)
    (fun error =>
       if Text.includes error "not found"
       then run log LOG "Core tool 'create_new_tool' not found (initial add). Adding it." ;
            run addTool TOOL_CREATION_TOOL_DEF true ;
            ret tt
       else log ERROR ("Error checking/adding core tool: " +:+ error)).

(** [null] is [None]. *)
Definition getTool_body (init : M (option string)) (id : string) : M (option obj) :=
  await _collection <- init ;
  try_catch
    (await results <- collection_get id ;
     if (0 <? length (ids results))%nat
     then ret (head (metadatas results))
     else ret None)
    (fun error =>
       run log ERROR ("Error retrieving tool ID '" +:+ id +:+ "': " +:+ error) ;
       ret None).

(** The filter over [uniqueToolIds]; [seen] is the set so far. *)
Fixpoint unique_tools (seen : list value) (tools : list obj) : list obj :=
  match tools with
  | [] => []
  | tool :: rest =>
      let i := get_field tool "id" in
      if existsb (same_value_zero i) seen
      then unique_tools seen rest
      else tool :: unique_tools (i :: seen) rest
  end.

Definition not_core (tool : obj) : bool :=
  negb (strict_eq_str (get_field tool "id") TOOL_CREATION_TOOL_ID).

(** The block that fills [relevantTools]. *)
Definition relevant_tools (context : string) (maxResults : Z) : M (list obj) :=
  if truthy (VStr context) && bool_decide (is_Some (embedder X))
  then try_catch
         (await results <- collection_query context (Z.max 1 maxResults) ;
          match results with
          | inner :: _ => ret (List.filter not_core inner)
          | [] => ret []
          end)
         (fun error =>
            run log ERROR ("Error querying ChromaDB for relevant tools: " +:+ error) ;
            ret [])
  else if bool_decide (is_Some (embedder X)) then ret []
  else run log WARN "Context provided, but no embedder configured. Skipping similarity search." ;
       ret [].

Definition getAvailableTools_body (init : M (option string))
    (context : string) (maxResults : Z) : M (list obj) :=
  await _collection <- init ;
  await relevantTools <- relevant_tools context maxResults ;
  await coreTool <- getTool_body init TOOL_CREATION_TOOL_ID ;
  match coreTool with
  | None =>
      run log ERROR "Critical Error: Core Tool Creation Tool definition is missing!" ;
      ret (TOOL_CREATION_TOOL_DEF :: relevantTools)
  | Some core =>
      let finalTools := core :: relevantTools in
      let uniqueTools := unique_tools [] finalTools in
      ret (slice0 uniqueTools (maxResults + 1))
  end.

(** The extraction step of [executeToolCreation]: the text handed to
    [JSON.parse], or the message of the error thrown. *)
Definition extract_json (rawResponse : string) : string + string :=
  let fallback :=
    if Text.startsWith rawResponse "{" && Text.endsWith rawResponse "}"
    then inr rawResponse
    else inl ("LLM response did not contain the expected JSON format. Response: " +:+ rawResponse) in
  match Text.match_json_fence rawResponse with
  | Some captured =>
      if truthy (VStr captured) then inr captured else fallback
  | None => fallback
  end.

(** The parsing step. *)
Definition parse_json (toolJson : string) : string + value :=
  match JSON_parse X toolJson with
  | inl message =>
      inl ("Failed to parse JSON from LLM response: " +:+ message +:+ ". Raw JSON: " +:+ toolJson)
  | inr v => inr v
  end.

(** The two structural checks. Reading a property of [null] is a
    [TypeError]; a primitive or an array has no [name]. *)
Definition validate (generatedToolDef : value) : string + obj :=
  let missing :=
    "Generated tool definition is missing required fields (name, description, parameters). Definition: "
    +:+ JSON_stringify X generatedToolDef in
  match generatedToolDef with
  | VNull | VUndefined => inl "Cannot read properties of null (reading 'name')"
  | VObj o =>
      let parameters := get_field o "parameters" in
      if negb (truthy (get_field o "name"))
         || negb (truthy (get_field o "description"))
         || negb (truthy parameters)
      then inl missing
      else if negb (typeof_object parameters)
              || negb (truthy (prop parameters "type"))
              || negb (truthy (prop parameters "properties"))
      then inl ("Generated tool parameters are not a valid JSON schema object. Definition: "
                +:+ JSON_stringify X generatedToolDef)
      else inr o
  | _ => inl missing
  end.

Definition lift {A} (r : string + A) : M A :=
  match r with
  | inl message => throw message
  | inr a => ret a
  end.

Definition make_prompt (taskDescription : string) (suggestedName : option string) : prompt :=
  Prompt taskDescription
    (match suggestedName with
     | Some n => if truthy (VStr n) then Some n else None
     | None => None
     end).

(** Extraction, parsing and validation in a row. *)
Definition synthesize (rawResponse : string) : string + obj :=
  match extract_json rawResponse with
  | inl message => inl message
  | inr toolJson =>
      match parse_json toolJson with
      | inl message => inl message
      | inr generatedToolDef => validate generatedToolDef
      end
  end.

(** The [try] block of [executeToolCreation]. *)
Definition creation_attempt (init : M (option string)) (model : string)
    (taskDescription : string) (suggestedName : option string) : M obj :=
  await content <- chat_completion model (make_prompt taskDescription suggestedName) ;
  let rawResponse := Text.trim <$> content in
  match rawResponse with
  | None | Some EmptyString => throw "LLM response was empty."
  | Some rawResponse =>
      await generatedToolDef <- lift (synthesize rawResponse) ;
      await addedTool <- addTool_body init generatedToolDef false ;
      run log LOG ("Successfully created and stored new tool: '"
                   +:+ interpolate (get_field addedTool "name") +:+ "'") ;
      ret addedTool
  end.

(** The [catch] block: the failure becomes the result. *)
Definition creation_failed (error : string) : M obj :=
  run log ERROR ("Error during tool creation execution: " +:+ error) ;
  ret [("error", VStr ("Failed to create tool: " +:+ error))].

Definition executeToolCreation_body (init : M (option string))
    (taskDescription : string) (suggestedName : option string) : M obj :=
  await client <- read llmClient ;
  match client with
  | None => throw "LLMClient is required for tool creation execution."
  | Some model =>
      run log LOG ("Executing Tool Creation for task: " +:+ dquote +:+ taskDescription +:+ dquote) ;
      try_catch (creation_attempt init model taskDescription suggestedName) creation_failed
  end.

(** *** The class: the bodies tied together

    [_getOrCreateCollection] awaits [ensureToolCreationTool], which awaits
    [_getOrCreateCollection]. Both run up to their first [await] before
    anything is suspended, so the calls nest on the stack of the engine;
    [fuel] is the depth the stack allows. The call that does not fit
    raises the [RangeError] of the engine, an error like any other: it
    goes up through both methods, neither of which handles it, and a
    [catch] further out does. *)
Fixpoint _getOrCreateCollection (fuel : nat) : M (option string) :=
  _getOrCreateCollection_body
    (match fuel with
     | O => throw stack_overflow
     | S fuel' =>
         ensureToolCreationTool_body (_getOrCreateCollection fuel')
           (addTool_body (_getOrCreateCollection fuel'))
     end).

Definition addTool (fuel : nat) : obj -> bool -> M obj :=
  addTool_body (_getOrCreateCollection fuel).

Definition ensureToolCreationTool (fuel : nat) : M unit :=
  ensureToolCreationTool_body (_getOrCreateCollection fuel) (addTool fuel).

Definition getTool (fuel : nat) : string -> M (option obj) :=
  getTool_body (_getOrCreateCollection fuel).

Definition getAvailableTools (fuel : nat) : string -> Z -> M (list obj) :=
  getAvailableTools_body (_getOrCreateCollection fuel).

Definition executeToolCreation (fuel : nat) : string -> option string -> M obj :=
  executeToolCreation_body (_getOrCreateCollection fuel).

End ToolManager.

Arguments extract_json rawResponse : simpl never.

(** ** What the specification calls a fenced block *)

(** [contents] sits between an opening [```json] and a closing [```],
    white space around it apart. *)
Definition fenced_block (raw contents : string) : Prop :=
  exists pre ws1 ws2 post,
    raw = pre +:+ Text.fence_open +:+ ws1 +:+ contents +:+ ws2 +:+ Text.fence +:+ post
    /\ Text.all_space ws1 = true /\ Text.all_space ws2 = true.

Definition has_fenced_block (raw : string) : Prop :=
  exists contents, fenced_block raw contents.

(** A complete [{...}] object, as far as the code looks. *)
Definition braced (raw : string) : bool :=
  Text.startsWith raw "{" && Text.endsWith raw "}".

Definition format_error (raw : string) : string :=
  "LLM response did not contain the expected JSON format. Response: " +:+ raw.

(** The result object of a failed creation. *)
Definition error_result (message : string) : obj :=
  [("error", VStr ("Failed to create tool: " +:+ message))].

(** The ids of a tool list are pairwise different for the comparison the
    code dedupes with. *)
Fixpoint distinct_ids (tools : list obj) : Prop :=
  match tools with
  | [] => True
  | tool :: rest =>
      (forall other, In other rest ->
         same_value_zero (get_field tool "id") (get_field other "id") = false)
      /\ distinct_ids rest
  end.

(** ** States and messages the statements below refer to *)

Definition no_embedder_error : string :=
  "Cannot create collection without an embedding function. Ensure OPENAI_API_KEY is set.".

(** The state after a successful connection: the call is in the trace,
    the handle is cached and the connection is logged. *)
Definition connected_state (s : state) : state :=
  push_log LOG ("Connected to ChromaDB collection: " +:+ COLLECTION_NAME)
    (with_collection (Some COLLECTION_NAME)
       (push_call (CConnect COLLECTION_NAME) s)).

(** The state in which [_getOrCreateCollection] goes on to
    [ensureToolCreationTool]. *)
Definition after_handshake (s : state) : state :=
  match collection s with
  | Some _ => s
  | None => connected_state s
  end.

(** The state after the first log line of [executeToolCreation]. *)
Definition announce (taskDescription : string) (s : state) : state :=
  push_log LOG ("Executing Tool Creation for task: " +:+ dquote +:+ taskDescription +:+ dquote) s.

Definition completion_call (model taskDescription : string)
    (suggestedName : option string) : call :=
  CCompletion model (make_prompt taskDescription suggestedName).

(** The state in which the answer of the model is processed. *)
Definition after_completion (model taskDescription : string)
    (suggestedName : option string) (s : state) : state :=
  push_call (completion_call model taskDescription suggestedName)
    (announce taskDescription s).

(** Lines 99 to 104 of [addTool] on a definition that has neither an id
    nor a type: both are filled in. *)
Definition with_generated_id_and_type (X : externals) (def : obj) (isCore : bool)
    (s : state) : obj :=
  set_field (set_field def "id" (VStr (uuidv4 X (length (trace s)))))
    "type" (VStr (if isCore then "core" else "llm_generated")).

(** ** A concrete world, to run the methods on *)
Module Demo.

Definition q (s : string) : string := dquote +:+ s +:+ dquote.
Definition newline : string := String (ascii_of_nat 10) EmptyString.

(** The example answer of the prompt, without and with its fences. *)
Definition weather_json : string :=
  "{" +:+ q "name" +:+ ":" +:+ q "get_current_weather" +:+ ","
  +:+ q "description" +:+ ":" +:+ q "Retrieves the current weather conditions for a specified city." +:+ ","
  +:+ q "parameters" +:+ ":{" +:+ q "type" +:+ ":" +:+ q "object" +:+ ","
  +:+ q "properties" +:+ ":{" +:+ q "city" +:+ ":{" +:+ q "type" +:+ ":" +:+ q "string" +:+ "}},"
  +:+ q "required" +:+ ":[" +:+ q "city" +:+ "]}}".

Definition weather_def : obj :=
  [ ("name", VStr "get_current_weather");
    ("description", VStr "Retrieves the current weather conditions for a specified city.");
    ("parameters", VObj
      [ ("type", VStr "object");
        ("properties", VObj [("city", VObj [("type", VStr "string")])]);
        ("required", VArr [VStr "city"]) ]) ].

Definition fenced (body : string) : string :=
  "```json" +:+ newline +:+ body +:+ newline +:+ "```".

(** The same answer without [parameters.properties]. *)
Definition no_properties_json : string :=
  "{" +:+ q "name" +:+ ":" +:+ q "get_current_weather" +:+ ","
  +:+ q "description" +:+ ":" +:+ q "Retrieves the current weather conditions for a specified city." +:+ ","
  +:+ q "parameters" +:+ ":{" +:+ q "type" +:+ ":" +:+ q "object" +:+ "}}".

Definition no_properties_def : obj :=
  [ ("name", VStr "get_current_weather");
    ("description", VStr "Retrieves the current weather conditions for a specified city.");
    ("parameters", VObj [("type", VStr "object")]) ].

(** An answer that names itself the core tool. *)
Definition impostor_json : string :=
  "{" +:+ q "id" +:+ ":" +:+ q "core_create_tool_001" +:+ ","
  +:+ q "type" +:+ ":" +:+ q "core" +:+ ","
  +:+ q "name" +:+ ":" +:+ q "noop" +:+ ","
  +:+ q "description" +:+ ":" +:+ q "Does nothing." +:+ ","
  +:+ q "parameters" +:+ ":{" +:+ q "type" +:+ ":" +:+ q "object" +:+ ","
  +:+ q "properties" +:+ ":{}}}".

Definition impostor_def : obj :=
  [ ("id", VStr "core_create_tool_001");
    ("type", VStr "core");
    ("name", VStr "noop");
    ("description", VStr "Does nothing.");
    ("parameters", VObj [("type", VStr "object"); ("properties", VObj [])]) ].

(** A stand-in for [JSON.parse] that knows the three texts above. *)
Definition parse (text : string) : string + value :=
  if String.eqb text weather_json then inr (VObj weather_def)
  else if String.eqb text no_properties_json then inr (VObj no_properties_def)
  else if String.eqb text impostor_json then inr (VObj impostor_def)
  else inl "Unexpected token".

Definition uuid (n : nat) : string :=
  "7c9e6679-7425-40de-944b-e07fc1f9" +:+ String (ascii_of_nat (48 + n mod 10)) EmptyString.

(** The store answers a query with its first records. *)
Definition first_records (_ : string) (store : gmap string entry) (n : Z) : list obj :=
  take (Z.to_nat n) (metadata <$> (map_to_list store).*2).

Definition no_fault (_ : nat) : option string := None.

Definition world (key : option string) (faults : nat -> option string)
    (answer : option string) : externals :=
  Externals key faults first_records (fun _ _ => answer) uuid parse
    (fun _ => "{}") (fun _ => "[object Object]").

Definition core_entry : entry :=
  Entry TOOL_CREATION_TOOL_DEF
    ("create_new_tool: Creates a definition for a new tool based on a natural language description of the desired functionality. It generates the tool name, description, and JSON parameter schema.").

Definition store_with_core : gmap string entry :=
  {[ TOOL_CREATION_TOOL_ID := core_entry ]}.

Definition model : string := "qwen2.5-coder:7b-instruct-q8_0".

(** A store that lost the core tool and holds one generated tool. *)
Definition stored_weather_def : obj :=
  ("id", VStr "7c9e6679-7425-40de-944b-e07fc1f90ae7") :: weather_def
  ++ [("type", VStr "llm_generated")].

Definition store_without_core : gmap string entry :=
  {[ "7c9e6679-7425-40de-944b-e07fc1f90ae7" :=
       Entry stored_weather_def
         "get_current_weather: Retrieves the current weather conditions for a specified city." ]}.

(** A store whose first call fails with a message that does not say
    not found. *)
Definition first_call_fails (n : nat) : option string :=
  match n with
  | O => Some "Failed to fetch"
  | S _ => None
  end.

Definition flaky : externals :=
  world (Some "sk-test") first_call_fails (Some (fenced weather_json)).

(** A manager that already holds its handle. *)
Definition connected (store : gmap string entry) : state :=
  State (Some COLLECTION_NAME) (Some model) store [] [].

(** Worlds: a configured one whose model answers as in the prompt's
    example, one without an API key, and three with other answers. *)
Definition configured : externals :=
  world (Some "sk-test") no_fault (Some (fenced weather_json)).
Definition unconfigured : externals :=
  world None no_fault (Some (fenced weather_json)).
Definition chatty : externals :=
  world (Some "sk-test") no_fault (Some "I could not come up with a tool.").
Definition careless : externals :=
  world (Some "sk-test") no_fault (Some (fenced no_properties_json)).

(** A manager fresh from the constructor, over a store that already holds
    the core tool. *)
Definition fresh (X : externals) : state :=
  constructor X (Some model) store_with_core.

(** The same manager without a completion client. *)
Definition clientless (X : externals) : state :=
  constructor X None store_with_core.

End Demo.

(** ** Blocks of the methods, named

    The statements of a method that follow its first [await], as the
    source has them; each method body above is its first step followed by
    the block (lemmas [getTool_body_block] and
    [ensureToolCreationTool_body_block]). *)

(** The [try]/[catch] of [getTool]. *)
Definition lookup_tool (X : externals) (id : string) : M (option obj) :=
  try_catch
    (await results <- collection_get X id ;
     if (0 <? length (ids results))%nat
     then ret (head (metadatas results))
     else ret None)
    (fun error =>
       run log ERROR ("Error retrieving tool ID '" +:+ id +:+ "': " +:+ error) ;
       ret None).

(** The [try]/[catch] of [ensureToolCreationTool]. *)
Definition core_tool_check (X : externals) (addTool : obj -> bool -> M obj) : M unit :=
  try_catch
    (await existing <- collection_get X TOOL_CREATION_TOOL_ID ;
     if (length (ids existing) =? 0)%nat
     then run log LOG "Core tool 'create_new_tool' not found. Adding it." ;
          run addTool TOOL_CREATION_TOOL_DEF true ;
          ret tt
     else ret tt)
    (fun error =>
       if Text.includes error "not found"
       then run log LOG "Core tool 'create_new_tool' not found (initial add). Adding it." ;
            run addTool TOOL_CREATION_TOOL_DEF true ;
            ret tt
       else log ERROR ("Error checking/adding core tool: " +:+ error)).

(** The catch branch of [ensureToolCreationTool] for an error that says
    not found. *)
Definition not_found_retry (add : obj -> bool -> M obj) : M unit :=
  run log LOG "Core tool 'create_new_tool' not found (initial add). Adding it." ;
  run add TOOL_CREATION_TOOL_DEF true ;
  ret tt.

(** The states of the existence check: after the fetch, before the
    first [addTool], and before the [addTool] of the catch branch. *)
Definition checked (s : state) : state :=
  push_call (CGet TOOL_CREATION_TOOL_ID) s.

Definition adding (s : state) : state :=
  push_log LOG "Core tool 'create_new_tool' not found. Adding it." (checked s).

Definition retrying (s : state) : state :=
  push_log LOG "Core tool 'create_new_tool' not found (initial add). Adding it." s.

Definition check_error_logged (e : string) (s : state) : state :=
  push_log ERROR ("Error checking/adding core tool: " +:+ e) s.

(** ** Shapes of text *)

Definition is_backtick (c : ascii) : bool := Ascii.eqb c "`"%char.

Fixpoint no_backtick (s : string) : bool :=
  match s with
  | EmptyString => true
  | String c s' => negb (is_backtick c) && no_backtick s'
  end.

(** A non-empty text whose first character is not white space. *)
Definition starts_clean (s : string) : bool :=
  match s with
  | String c _ => negb (Text.is_space c)
  | EmptyString => false
  end.

(** A non-empty text whose last character is not white space. *)
Fixpoint ends_clean (s : string) : bool :=
  match s with
  | EmptyString => false
  | String c EmptyString => negb (Text.is_space c)
  | String _ s' => ends_clean s'
  end.

(** ** The set behind [uniqueToolIds] *)

(** The ids in the set once the filter has gone through [tools]. *)
Fixpoint seen_after (seen : list value) (tools : list obj) : list value :=
  match tools with
  | [] => seen
  | tool :: rest =>
      let i := get_field tool "id" in
      if existsb (same_value_zero i) seen
      then seen_after seen rest
      else seen_after (i :: seen) rest
  end.

(** Some tool of [tools] has the id [i]. *)
Definition id_among (i : value) (tools : list obj) : bool :=
  existsb (fun tool => same_value_zero i (get_field tool "id")) tools.

(** ** Calls that do not touch the records of the collection *)

Definition quiet (c : call) : bool :=
  match c with
  | CConnect _ | CCompletion _ _ | CUuid => true
  | CGet _ | CUpsert _ _ | CQuery _ _ => false
  end.

(** From [s] to [s'] the catalog and the completion client stayed as they
    were, and no record was read, written or queried. *)
Definition untouched (s s' : state) : Prop :=
  catalog s' = catalog s
  /\ llmClient s' = llmClient s
  /\ exists added, trace s' = (trace s ++ added)%list /\ forallb quiet added = true.

(** The run ended, with a result or an exception, and left the store
    alone. *)
Definition leaves_store_alone {A} (s : state) (o : outcome A) : Prop :=
  match o with
  | Ret _ s' | Throw _ s' => untouched s s'
  | Diverge => False
  end.

(** A computation that leaves the store alone from every state. *)
Definition keeps_store {A} (m : M A) : Prop :=
  forall s, leaves_store_alone s (m s).

(** ** More worlds to run the methods on *)
Module Scenario.

(** A model that answers with blank lines only. *)
Definition blank : externals :=
  Demo.world (Some "sk-test") Demo.no_fault
    (Some ("  " +:+ Demo.newline +:+ Demo.newline)).

(** A store whose second call fails, saying that something was not
    found. *)
Definition second_call_fails (n : nat) : option string :=
  match n with
  | 1%nat => Some "Collection agent_tools not found"
  | _ => None
  end.

Definition forgetful : externals :=
  Demo.world (Some "sk-test") second_call_fails (Some (Demo.fenced Demo.weather_json)).

(** The weather tool as [addTool] leaves it, and an update of it. *)
Definition weather_v1 : obj := Demo.stored_weather_def.

Definition weather_v2 : obj :=
  set_field Demo.stored_weather_def "description"
    (VStr "Retrieves current conditions and a three day forecast for a city.").

(** A store that answers the first call and fails every later one,
    saying that the collection was not found. *)
Definition only_first_call_works (n : nat) : option string :=
  match n with
  | O => None
  | S _ => Some "Collection agent_tools not found"
  end.

Definition lost : externals :=
  Demo.world (Some "sk-test") only_first_call_works (Some (Demo.fenced Demo.weather_json)).

(** [addTool] without its first [await]: the defaults, then the store. *)
Definition add_directly (X : externals) (def : obj) (isCore : bool) : M obj :=
  await d <- assign_defaults X def isCore ; store_tool X d.

(** The state a run ends in; [s] when it does not end. *)
Definition final_state {A} (o : outcome A) (s : state) : state :=
  match o with
  | Ret _ s' | Throw _ s' => s'
  | Diverge => s
  end.

(** A connected manager after the weather tool was stored, and after it
    was stored a second time with the new description. *)
Definition stored_once : state :=
  final_state (store_tool Demo.configured weather_v1 (Demo.connected Demo.store_with_core))
    (Demo.connected Demo.store_with_core).

Definition stored_twice : state :=
  final_state (store_tool Demo.configured weather_v2 stored_once) stored_once.

End Scenario.

(** ** The demo (index.js) *)

(** A tool manager as the agent sees it: the two methods it calls. *)
Record tool_manager : Type := ToolMgr {
  tm_getAvailableTools : string -> Z -> M (list obj);
  tm_executeToolCreation : value -> value -> M obj
}.

(** One entry of [message.tool_calls]. *)
Record tool_call : Type := ToolCall { fn_name : value; fn_arguments : string }.

Record message : Type := Message { content : value; tool_calls : list tool_call }.

(** The completion client of the agent: given the user input and the
    tools offered ([None] for [undefined]), the [choices] of the response,
    or the message of the error raised. *)
Definition agent_llm : Type := string -> option (list obj) -> string + list message.

(** Reading an identifier that the module neither declares nor imports. *)
Definition unbound {A} (name : string) : M A :=
  throw (name +:+ " is not defined").

(** An element of an array under [join]: [undefined] and [null] give
    the empty string. *)
Definition joined (X : externals) (v : value) : string :=
  match v with
  | VUndefined | VNull => EmptyString
  | _ => interpolate X v
  end.

Definition names_of (X : externals) (tools : list obj) : list string :=
  (fun t => joined X (get_field t "name")) <$> tools.

(** [a === b]; numbers here are finite, so the comparison is the one of
    [same_value_zero]. *)
Definition strict_eq (a b : value) : bool := same_value_zero a b.

Fixpoint join (sep : string) (parts : list string) : string :=
  match parts with
  | [] => EmptyString
  | [p] => p
  | p :: rest => p +:+ sep +:+ join sep rest
  end.

Definition tool_for_llm (tool : obj) : obj :=
  [ ("type", VStr "function");
    ("function", VObj
       [ ("name", get_field tool "name");
         ("description", get_field tool "description");
         ("parameters", get_field tool "parameters") ]) ].

Definition apology : value :=
  VStr "Sorry, I encountered an error processing your request.".

(** [toolArgs.k]: a [TypeError] when the arguments parsed to [null]. *)
Definition argument (toolArgs : value) (k : string) : M value :=
  match toolArgs with
  | VNull | VUndefined => throw ("Cannot read properties of null (reading '" +:+ k +:+ "')")
  | _ => ret (prop toolArgs k)
  end.

(** The [try] block of [Agent.process]. *)
Definition agent_turn (X : externals) (llm : agent_llm) (toolManager : tool_manager)
    (userInput : string) (toolsForLLM : list obj) : M value :=
  await choices <-
    lift (llm userInput (match toolsForLLM with [] => None | _ => Some toolsForLLM end)) ;
  match choices with
  | [] => throw "Cannot read properties of undefined (reading 'message')"
  | message :: _ =>
      match tool_calls message with
      | toolCall :: _ =>
          let toolName := fn_name toolCall in
          await toolArgs <- lift (JSON_parse X (fn_arguments toolCall)) ;
          run log LOG ("[Agent] LLM requested tool: " +:+ interpolate X toolName
                       +:+ " with args: " +:+ interpolate X toolArgs) ;
          await coreDef <- unbound "TOOL_CREATION_TOOL_DEF" ;
          if strict_eq toolName (get_field coreDef "name")
          then
            await task_description <- argument toolArgs "task_description" ;
            await suggested_name <- argument toolArgs "suggested_name" ;
            await result <- tm_executeToolCreation toolManager task_description suggested_name ;
            if truthy (get_field result "error")
            then run log ERROR ("[Agent] Failed to create tool: "
                                +:+ interpolate X (get_field result "error")) ;
                 ret (VStr ("Sorry, I encountered an error trying to create that tool: "
                            +:+ interpolate X (get_field result "error")))
            else run log LOG ("[Agent] Successfully created tool: "
                              +:+ interpolate X (get_field result "name")) ;
                 ret (VStr ("I have successfully created the tool: '"
                            +:+ interpolate X (get_field result "name")
                            +:+ "'. You can now use it if relevant."))
          else
            run log LOG ("[Agent] Placeholder: Would execute tool '"
                         +:+ interpolate X toolName +:+ "' here.") ;
            ret (VStr ("I received a request to use the tool '" +:+ interpolate X toolName
                       +:+ "', but executing generated tools is not implemented in this example."))
      | [] =>
          run log LOG "[Agent] LLM provided direct answer." ;
          ret (content message)
      end
  end.

(** [Agent.process(userInput)] *)
Definition process (X : externals) (llm : agent_llm) (toolManager : tool_manager)
    (userInput : string) : M value :=
  run log LOG (String (ascii_of_nat 10) "[Agent] Processing: "
               +:+ dquote +:+ userInput +:+ dquote) ;
  await availableTools <- tm_getAvailableTools toolManager userInput 5 ;
  run log LOG ("[Agent] Available tools: " +:+ join ", " (names_of X availableTools)) ;
  let toolsForLLM := tool_for_llm <$> availableTools in
  try_catch (agent_turn X llm toolManager userInput toolsForLLM)
    (fun error =>
       run log ERROR ("[Agent] Error during LLM interaction: " +:+ error) ;
       ret apology).

(** The [toolManager] of index.js: an instance of the class. What the
    agent passes on is interpolated into the prompt, the name only when it
    is truthy. *)
Definition class_manager (X : externals) (fuel : nat) : tool_manager :=
  ToolMgr (getAvailableTools X fuel)
    (fun task_description suggested_name =>
       executeToolCreation X fuel (interpolate X task_description)
         (if truthy suggested_name then Some (interpolate X suggested_name) else None)).

(** [runDemo()], up to the point where the interactive session starts;
    [session] is everything after the initialisation. *)
Definition runDemo (X : externals) (fuel : nat) (session : M unit) : M unit :=
  await initialised <-
    try_catch
      (run _getOrCreateCollection X fuel ;
       run log LOG "Tool Manager initialized and core tool checked/added." ;
       ret true)
      (fun error =>
         run log ERROR ("Failed to initialize Tool Manager. Exiting. " +:+ error) ;
         ret false) ;
  if initialised then session else ret tt.

(** The state after the first log line of [process]. *)
Definition processing (userInput : string) (s : state) : state :=
  push_log LOG (String (ascii_of_nat 10) "[Agent] Processing: "
                +:+ dquote +:+ userInput +:+ dquote) s.

(** ** A stage for the agent *)
Module Stage.

(** A tool manager that hands out the core tool, and a model that asks
    for it to be called. *)
Definition obliging_manager : tool_manager :=
  ToolMgr (fun _ _ => ret [TOOL_CREATION_TOOL_DEF]) (fun _ _ => ret Demo.weather_def).

Definition eager_llm : agent_llm :=
  fun _ _ => inr [Message VNull [ToolCall (VStr "create_new_tool") Demo.weather_json]].

(** A model that answers directly. *)
Definition plain_llm : agent_llm :=
  fun _ _ => inr [Message (VStr "It is sunny in Paris.") []].

End Stage.

(** ** Outcomes of sequenced calls *)
Section Outcomes.

Context {A B : Type}.

Lemma bind_stuck (m : M A) (k : A -> M B) (s : state) :
  returned (m s) = false ->
  bind m k s = match m s with
               | Throw msg s' => Throw msg s'
               | _ => Diverge
               end.
Proof. unfold bind. destruct (m s); simpl; [discriminate | reflexivity..]. Qed.

Lemma bind_no_return (m : M A) (k : A -> M B) (s : state) :
  returned (m s) = false -> returned (bind m k s) = false.
Proof. intros H. rewrite bind_stuck by exact H. destruct (m s); reflexivity. Qed.

Lemma bind_ret (m : M A) (k : A -> M B) (s s' : state) (a : A) :
  m s = Ret a s' -> bind m k s = k a s'.
Proof. unfold bind. intros ->. reflexivity. Qed.

Lemma bind_throw (m : M A) (k : A -> M B) (s s' : state) (msg : string) :
  m s = Throw msg s' -> bind m k s = Throw msg s'.
Proof. unfold bind. intros ->. reflexivity. Qed.

Lemma bind_diverge (m : M A) (k : A -> M B) (s : state) :
  m s = Diverge -> bind m k s = Diverge.
Proof. unfold bind. intros ->. reflexivity. Qed.

End Outcomes.

Lemma not_returned_inv {A} (o : outcome A) :
  returned o = false -> (exists msg s, o = Throw msg s) \/ o = Diverge.
Proof. destruct o; simpl; intros H; [discriminate | eauto..]. Qed.

(** ** Initialisation: [_getOrCreateCollection] and [ensureToolCreationTool] *)
Section Initialisation.

Variable X : externals.

(** The first statement of [_getOrCreateCollection], up to the call of
    [ensureToolCreationTool]: it either throws or leaves a cached handle. *)
Lemma body_no_return (ensure : M unit) :
  (forall s, returned (ensure s) = false) ->
  forall s, returned (_getOrCreateCollection_body X ensure s) = false.
Proof.
  intros Hens s. unfold _getOrCreateCollection_body.
  unfold bind at 1.
  destruct (collection s) eqn:Hc.
  - apply bind_no_return, Hens.
  - destruct (embedder X); [|reflexivity].
    unfold try_catch, bind, chroma_getOrCreateCollection, external.
    destruct (fault X (length (trace s))); simpl; [reflexivity|].
    match goal with
    | |- context [ensure ?s1] =>
        pose proof (Hens s1) as He; destruct (ensure s1); [discriminate | reflexivity..]
    end.
Qed.

Lemma ensure_body_no_return (init : M (option string)) (add : obj -> bool -> M obj) :
  (forall s, returned (init s) = false) ->
  forall s, returned (ensureToolCreationTool_body X init add s) = false.
Proof. intros Hinit s. apply bind_no_return, Hinit. Qed.

Lemma getOrCreateCollection_no_return (fuel : nat) (s : state) :
  returned (_getOrCreateCollection X fuel s) = false.
Proof.
  revert s. induction fuel as [|fuel IH]; intros s; simpl.
  - apply body_no_return. reflexivity.
  - apply body_no_return. intros s'. apply ensure_body_no_return, IH.
Qed.

(** With the handle cached the method goes straight on to
    [ensureToolCreationTool]. *)
Lemma body_cached (ensure : M unit) (s : state) :
  is_Some (collection s) ->
  _getOrCreateCollection_body X ensure s = bind ensure (fun _ => read collection) s.
Proof.
  intros [c Hc]. unfold _getOrCreateCollection_body.
  unfold bind at 1. rewrite Hc. reflexivity.
Qed.

Lemma getOrCreateCollection_cached_overflows (fuel : nat) (s : state) :
  is_Some (collection s) -> _getOrCreateCollection X fuel s = Throw stack_overflow s.
Proof.
  revert s. induction fuel as [|fuel IH]; intros s Hs; simpl.
  - rewrite body_cached by exact Hs. reflexivity.
  - rewrite body_cached by exact Hs.
    apply bind_throw. unfold ensureToolCreationTool_body.
    apply bind_throw, IH, Hs.
Qed.

(** A manager that can connect caches its handle and then runs out of
    stack. *)
Lemma getOrCreateCollection_connected_overflows (fuel : nat) (s : state) :
  collection s = None ->
  is_Some (embedder X) ->
  fault X (length (trace s)) = None ->
  _getOrCreateCollection X fuel s = Throw stack_overflow (connected_state s).
Proof.
  intros Hc [key Hkey] Hf.
  assert (Hall : forall ensure,
    _getOrCreateCollection_body X ensure s =
      bind ensure (fun _ => read collection) (connected_state s)).
  { intros ensure. unfold _getOrCreateCollection_body. unfold bind at 1.
    rewrite Hc, Hkey.
    unfold try_catch, bind at 1, chroma_getOrCreateCollection, external.
    rewrite Hf. reflexivity. }
  destruct fuel as [|fuel]; simpl; rewrite Hall.
  - reflexivity.
  - apply bind_throw. unfold ensureToolCreationTool_body.
    apply bind_throw, getOrCreateCollection_cached_overflows. simpl. eauto.
Qed.

(** Without an embedding function the first call throws on the spot. *)
Lemma getOrCreateCollection_no_embedder (fuel : nat) (s : state) :
  collection s = None ->
  embedder X = None ->
  _getOrCreateCollection X fuel s =
    Throw "Cannot create collection without an embedding function. Ensure OPENAI_API_KEY is set." s.
Proof.
  intros Hc He.
  assert (Hall : forall ensure, _getOrCreateCollection_body X ensure s =
    Throw "Cannot create collection without an embedding function. Ensure OPENAI_API_KEY is set." s).
  { intros ensure. unfold _getOrCreateCollection_body. unfold bind at 1.
    rewrite Hc, He. reflexivity. }
  destruct fuel; simpl; apply Hall.
Qed.

(** An unreachable store makes it throw the connection error. *)
Lemma getOrCreateCollection_unreachable (fuel : nat) (s : state) (msg : string) :
  collection s = None ->
  is_Some (embedder X) ->
  fault X (length (trace s)) = Some msg ->
  _getOrCreateCollection X fuel s =
    Throw "Could not connect to or create ChromaDB collection."
      (push_log ERROR ("Error connecting to ChromaDB: " +:+ msg)
         (push_call (CConnect COLLECTION_NAME) s)).
Proof.
  intros Hc [key Hkey] Hf.
  assert (Hall : forall ensure, _getOrCreateCollection_body X ensure s =
    Throw "Could not connect to or create ChromaDB collection."
      (push_log ERROR ("Error connecting to ChromaDB: " +:+ msg)
         (push_call (CConnect COLLECTION_NAME) s))).
  { intros ensure. unfold _getOrCreateCollection_body. unfold bind at 1.
    rewrite Hc, Hkey.
    unfold try_catch, bind at 1, chroma_getOrCreateCollection, external.
    rewrite Hf. reflexivity. }
  destruct fuel; simpl; apply Hall.
Qed.

End Initialisation.

(** ** The extraction pattern finds exactly the fenced blocks *)
Section Pattern.

Import Text.

Lemma app_cons (a : ascii) (s t : string) :
  String a s +:+ t = String a (s +:+ t).
Proof. reflexivity. Qed.

Lemma app_empty (t : string) : EmptyString +:+ t = t.
Proof. reflexivity. Qed.

Lemma app_assoc' (s t u : string) : (s +:+ t) +:+ u = s +:+ t +:+ u.
Proof.
  induction s as [|a s IH]; [reflexivity|].
  rewrite !app_cons, IH. reflexivity.
Qed.

Lemma all_space_app (s t : string) :
  all_space (s +:+ t) = all_space s && all_space t.
Proof.
  induction s as [|a s IH]; [reflexivity|].
  rewrite app_cons. simpl. rewrite IH. apply andb_assoc.
Qed.

Lemma strip_prefix_spec (p s r : string) :
  strip_prefix p s = Some r <-> s = p +:+ r.
Proof.
  revert s. induction p as [|a p IH]; intros s; simpl.
  - rewrite app_empty. split; congruence.
  - rewrite app_cons. destruct s as [|b s].
    + split; discriminate.
    + destruct (Ascii.eqb_spec a b) as [->|Hne].
      * rewrite IH. split; congruence.
      * split; [discriminate | congruence].
Qed.

Lemma strip_prefix_app (p r : string) : strip_prefix p (p +:+ r) = Some r.
Proof. apply strip_prefix_spec. reflexivity. Qed.

Lemma closes_eq (s : string) :
  closes s = match strip_prefix fence s with
             | Some _ => true
             | None =>
                 match s with
                 | String c s' => if is_space c then closes s' else false
                 | EmptyString => false
                 end
             end.
Proof. destruct s; reflexivity. Qed.

Lemma lazy_capture_eq (s : string) :
  lazy_capture s = if closes s then Some EmptyString
                   else match s with
                        | String c s' => String c <$> lazy_capture s'
                        | EmptyString => None
                        end.
Proof. destruct s; reflexivity. Qed.

Lemma after_open_eq (s : string) :
  after_open s = match s with
                 | String c s' =>
                     if is_space c
                     then match after_open s' with
                          | Some r => Some r
                          | None => lazy_capture s
                          end
                     else lazy_capture s
                 | EmptyString => lazy_capture s
                 end.
Proof. destruct s; reflexivity. Qed.

Lemma match_json_fence_eq (s : string) :
  match_json_fence s = match match_here s with
                       | Some r => Some r
                       | None =>
                           match s with
                           | String _ s' => match_json_fence s'
                           | EmptyString => None
                           end
                       end.
Proof. destruct s; reflexivity. Qed.

Lemma closes_sound (s : string) :
  closes s = true ->
  exists ws post, s = ws +:+ fence +:+ post /\ all_space ws = true.
Proof.
  induction s as [|c s IH]; rewrite closes_eq.
  - discriminate.
  - destruct (strip_prefix fence (String c s)) as [r|] eqn:Hp.
    + intros _. apply strip_prefix_spec in Hp.
      exists EmptyString, r. rewrite app_empty. split; [exact Hp | reflexivity].
    + destruct (is_space c) eqn:Hc; [|discriminate].
      intros H. destruct (IH H) as (ws & post & -> & Hws).
      exists (String c ws), post. rewrite app_cons. split; [reflexivity|].
      simpl. rewrite Hc. exact Hws.
Qed.

Lemma closes_complete (ws post : string) :
  all_space ws = true -> closes (ws +:+ fence +:+ post) = true.
Proof.
  induction ws as [|c ws IH]; intros Hws; rewrite closes_eq.
  - rewrite app_empty, strip_prefix_app. reflexivity.
  - simpl in Hws. apply andb_prop in Hws as [Hc Hws].
    rewrite app_cons, Hc, IH by exact Hws.
    destruct (strip_prefix fence _); reflexivity.
Qed.

Lemma lazy_capture_sound (s c : string) :
  lazy_capture s = Some c ->
  exists ws post, s = c +:+ ws +:+ fence +:+ post /\ all_space ws = true.
Proof.
  revert c. induction s as [|a s IH]; intros c; rewrite lazy_capture_eq.
  - destruct (closes EmptyString) eqn:Hcl; [|discriminate].
    intros [= <-]. exact (closes_sound _ Hcl).
  - destruct (closes (String a s)) eqn:Hcl.
    + intros [= <-]. exact (closes_sound _ Hcl).
    + destruct (lazy_capture s) as [c'|]; [|discriminate].
      intros [= <-]. destruct (IH c' eq_refl) as (ws & post & -> & Hws).
      exists ws, post. split; [reflexivity | exact Hws].
Qed.

Lemma lazy_capture_complete (c ws post : string) :
  all_space ws = true -> is_Some (lazy_capture (c +:+ ws +:+ fence +:+ post)).
Proof.
  intros Hws. induction c as [|a c IH]; rewrite lazy_capture_eq.
  - rewrite app_empty, (closes_complete ws post Hws). eauto.
  - rewrite app_cons.
    destruct (closes _); [eauto|].
    destruct IH as [r ->]. simpl. eauto.
Qed.

Lemma lazy_capture_block (s c : string) :
  lazy_capture s = Some c ->
  exists ws1 ws2 post,
    s = ws1 +:+ c +:+ ws2 +:+ fence +:+ post
    /\ all_space ws1 = true /\ all_space ws2 = true.
Proof.
  intros H. destruct (lazy_capture_sound _ _ H) as (ws & post & -> & Hws).
  exists EmptyString, ws, post. rewrite app_empty. auto.
Qed.

Lemma after_open_sound (s c : string) :
  after_open s = Some c ->
  exists ws1 ws2 post,
    s = ws1 +:+ c +:+ ws2 +:+ fence +:+ post
    /\ all_space ws1 = true /\ all_space ws2 = true.
Proof.
  revert c. induction s as [|a s IH]; intros c; rewrite after_open_eq.
  - apply lazy_capture_block.
  - destruct (is_space a) eqn:Ha; [|apply lazy_capture_block].
    destruct (after_open s) as [r|]; [|apply lazy_capture_block].
    intros [= <-]. destruct (IH r eq_refl) as (ws1 & ws2 & post & -> & H1 & H2).
    exists (String a ws1), ws2, post. rewrite app_cons. split; [reflexivity|].
    split; [simpl; rewrite Ha; exact H1 | exact H2].
Qed.

Lemma after_open_lazy (s : string) :
  is_Some (lazy_capture s) -> is_Some (after_open s).
Proof.
  rewrite after_open_eq. destruct s as [|a s]; [auto|].
  intros H. destruct (is_space a); [|exact H].
  destruct (after_open s); [eauto | exact H].
Qed.

Lemma match_here_sound (s c : string) :
  match_here s = Some c -> fenced_block s c.
Proof.
  unfold match_here. destruct (strip_prefix fence_open s) as [rest|] eqn:Hp; [|discriminate].
  apply strip_prefix_spec in Hp. intros H.
  destruct (after_open_sound _ _ H) as (ws1 & ws2 & post & -> & H1 & H2).
  exists EmptyString, ws1, ws2, post. rewrite app_empty. auto.
Qed.

Lemma match_json_fence_sound (s c : string) :
  match_json_fence s = Some c -> fenced_block s c.
Proof.
  induction s as [|a s IH]; rewrite match_json_fence_eq.
  - destruct (match_here EmptyString) eqn:Hm; [|discriminate].
    intros [= <-]. apply match_here_sound, Hm.
  - destruct (match_here (String a s)) eqn:Hm.
    + intros [= <-]. apply match_here_sound, Hm.
    + intros H. destruct (IH H) as (pre & ws1 & ws2 & post & -> & H1 & H2).
      exists (String a pre), ws1, ws2, post. rewrite app_cons. auto.
Qed.

Lemma match_json_fence_complete (s : string) :
  has_fenced_block s -> is_Some (match_json_fence s).
Proof.
  intros (c & pre & ws1 & ws2 & post & -> & H1 & H2).
  assert (Hhere : is_Some (match_here (fence_open +:+ ws1 +:+ c +:+ ws2 +:+ fence +:+ post))).
  { unfold match_here. rewrite strip_prefix_app.
    apply after_open_lazy.
    rewrite <- (app_assoc' ws1 c). apply lazy_capture_complete, H2. }
  induction pre as [|a pre IH]; rewrite match_json_fence_eq.
  - rewrite app_empty. destruct Hhere as [r ->]. eauto.
  - rewrite app_cons. destruct (match_here (String a _)); [eauto | exact IH].
Qed.

(** The pattern matches exactly the responses that hold a fenced block. *)
Lemma match_json_fence_iff (s : string) :
  is_Some (match_json_fence s) <-> has_fenced_block s.
Proof.
  split.
  - intros [c Hc]. exists c. apply match_json_fence_sound, Hc.
  - apply match_json_fence_complete.
Qed.

End Pattern.

(** ** The public methods behind the handshake *)
Section Handshake.

Variable X : externals.

(** Every way [_getOrCreateCollection] can end. *)
Lemma getOrCreateCollection_table (fuel : nat) (s : state) :
  _getOrCreateCollection X fuel s =
    match collection s, embedder X, fault X (length (trace s)) with
    | Some _, _, _ => Throw stack_overflow s
    | None, None, _ => Throw no_embedder_error s
    | None, Some _, Some msg =>
        Throw "Could not connect to or create ChromaDB collection."
          (push_log ERROR ("Error connecting to ChromaDB: " +:+ msg)
             (push_call (CConnect COLLECTION_NAME) s))
    | None, Some _, None => Throw stack_overflow (connected_state s)
    end.
Proof.
  destruct (collection s) as [c|] eqn:Hc.
  { apply getOrCreateCollection_cached_overflows. rewrite Hc. eauto. }
  destruct (embedder X) as [key|] eqn:Hkey.
  - destruct (fault X (length (trace s))) as [msg|] eqn:Hf.
    + apply getOrCreateCollection_unreachable; [exact Hc | rewrite Hkey; eauto | exact Hf].
    + apply getOrCreateCollection_connected_overflows;
        [exact Hc | rewrite Hkey; eauto | exact Hf].
  - apply getOrCreateCollection_no_embedder; assumption.
Qed.

(** With a key and a store that answers, the handshake ends in the
    [RangeError], with the handle cached. *)
Lemma getOrCreateCollection_overflows (fuel : nat) (s : state) :
  is_Some (embedder X) ->
  fault X (length (trace s)) = None ->
  _getOrCreateCollection X fuel s = Throw stack_overflow (after_handshake s).
Proof.
  intros Hkey Hf. unfold after_handshake. destruct (collection s) as [c|] eqn:Hc.
  - apply getOrCreateCollection_cached_overflows. rewrite Hc. eauto.
  - apply getOrCreateCollection_connected_overflows; assumption.
Qed.

Lemma addTool_no_return (fuel : nat) (d : obj) (isCore : bool) (s : state) :
  returned (addTool X fuel d isCore s) = false.
Proof.
  unfold addTool, addTool_body, bind at 1.
  destruct (assign_defaults X d isCore s) as [d' s'| |]; [|reflexivity..].
  apply bind_no_return, getOrCreateCollection_no_return.
Qed.

Lemma getTool_no_return (fuel : nat) (id : string) (s : state) :
  returned (getTool X fuel id s) = false.
Proof. apply bind_no_return, getOrCreateCollection_no_return. Qed.

Lemma getAvailableTools_no_return (fuel : nat) (context : string) (n : Z) (s : state) :
  returned (getAvailableTools X fuel context n s) = false.
Proof. apply bind_no_return, getOrCreateCollection_no_return. Qed.

Lemma getAvailableTools_stuck (fuel : nat) (context : string) (n : Z) (s : state) :
  getAvailableTools X fuel context n s =
    match _getOrCreateCollection X fuel s with
    | Throw msg s' => Throw msg s'
    | _ => Diverge
    end.
Proof. apply bind_stuck, getOrCreateCollection_no_return. Qed.

End Handshake.

(** C1. The claim says a call of _getOrCreateCollection returns control to
    its caller. The code does not: for every manager state and every bound
    on the nesting of calls, neither _getOrCreateCollection nor
    ensureToolCreationTool returns; each call ends in an exception, that
    of the missing embedder or the failed connection, or the RangeError
    of the stack the two methods fill calling each other. *)
Theorem initialisation_never_completes (X : externals) (fuel : nat) (s : state) :
  returned (_getOrCreateCollection X fuel s) = false
  /\ returned (ensureToolCreationTool X fuel s) = false.
Proof.
  split.
  - apply getOrCreateCollection_no_return.
  - apply ensure_body_no_return. intros s'. apply getOrCreateCollection_no_return.
Qed.

(** The failing run of C1: a fresh manager with a key, over a reachable
    store that holds the core tool. *)
Example fresh_manager_never_initialises (fuel : nat) :
  _getOrCreateCollection Demo.configured fuel (Demo.fresh Demo.configured)
  = Throw stack_overflow (connected_state (Demo.fresh Demo.configured)).
Proof.
  apply getOrCreateCollection_connected_overflows; [reflexivity | simpl; eauto | reflexivity].
Qed.

(** C2. The claim describes the list getAvailableTools returns. The code
    returns no list: for every context, every maxResults and every state
    the call ends like its first statement, the await of
    _getOrCreateCollection, which never returns. *)
Theorem getAvailableTools_never_returns (X : externals) (fuel : nat)
    (context : string) (maxResults : Z) (s : state) :
  returned (getAvailableTools X fuel context maxResults s) = false
  /\ getAvailableTools X fuel context maxResults s =
       match _getOrCreateCollection X fuel s with
       | Throw msg s' => Throw msg s'
       | _ => Diverge
       end.
Proof.
  split; [apply getAvailableTools_no_return | apply getAvailableTools_stuck].
Qed.

(** C5. With the meta-tool stored, an embedding function configured and
    the store reachable, getAvailableTools with the empty context does not
    return the one-element list of the claim: whatever depth the stack
    allows, the call ends in the RangeError that _getOrCreateCollection
    runs into, raised to the caller, in the state the handshake left:
    nothing was fetched or queried. *)
Theorem getAvailableTools_empty_context_overflows (X : externals) (fuel : nat)
    (maxResults : Z) (s : state) (e : entry) :
  catalog s !! TOOL_CREATION_TOOL_ID = Some e ->
  is_Some (embedder X) ->
  fault X (length (trace s)) = None ->
  getAvailableTools X fuel EmptyString maxResults s
    = Throw stack_overflow (after_handshake s).
Proof.
  intros _ Hkey Hf. rewrite getAvailableTools_stuck.
  rewrite getOrCreateCollection_overflows by assumption. reflexivity.
Qed.

(** The scenario of C5 on the demo world. *)
Lemma getAvailableTools_empty_context_overflows_witness :
  getAvailableTools Demo.configured 7 EmptyString 5 (Demo.fresh Demo.configured)
    = Throw stack_overflow (after_handshake (Demo.fresh Demo.configured)).
Proof.
  apply (getAvailableTools_empty_context_overflows Demo.configured 7 5
           (Demo.fresh Demo.configured) Demo.core_entry).
  - reflexivity.
  - simpl. eauto.
  - reflexivity.
Defined.

(** C7. The round trip of the claim cannot be run: addTool never returns
    the stored definition and getTool never returns an answer, for any
    definition, id, state and bound on the nesting of calls. *)
Theorem addTool_getTool_never_return (X : externals) (fuel : nat)
    (def : obj) (isCore : bool) (id : string) (s : state) :
  returned (addTool X fuel def isCore s) = false
  /\ returned (getTool X fuel id s) = false.
Proof. split; [apply addTool_no_return | apply getTool_no_return]. Qed.

(** ** Retrieval without an embedding function *)

(** C4, as the claim states it, fails: without an API key a fresh manager
    does not complete getAvailableTools with the meta-tool alone; no bound
    on the nesting of calls makes it return anything. *)
Lemma getAvailableTools_blocked_without_embedder :
  ~ exists fuel tools s',
      getAvailableTools Demo.unconfigured fuel "weather in Paris" 5
        (Demo.fresh Demo.unconfigured) = Ret tools s'.
Proof.
  intros (fuel & tools & s' & H).
  pose proof (getAvailableTools_no_return Demo.unconfigured fuel "weather in Paris" 5
                (Demo.fresh Demo.unconfigured)) as Hno.
  rewrite H in Hno. discriminate.
Qed.

(** C4, amended. Without an embedding function the constructor only warns,
    but a manager without a cached collection (which is every manager the
    constructor builds) cannot serve getAvailableTools: the call throws the
    configuration error of _getOrCreateCollection, leaves the state as it
    was and makes no query. *)
Theorem getAvailableTools_without_embedder (X : externals) (fuel : nat)
    (context : string) (maxResults : Z) (client : option string)
    (store : gmap string entry) (s : state) :
  embedder X = None ->
  collection s = None ->
  getAvailableTools X fuel context maxResults s = Throw no_embedder_error s
  /\ collection (constructor X client store) = None
  /\ exists warning, console (constructor X client store) = [(WARN, warning)].
Proof.
  intros He Hc. split; [|split].
  - rewrite getAvailableTools_stuck, getOrCreateCollection_no_embedder by assumption.
    reflexivity.
  - reflexivity.
  - unfold constructor. rewrite He. simpl. eauto.
Qed.

(** The amended C4 on a manager without an API key. *)
Lemma getAvailableTools_without_embedder_witness :
  getAvailableTools Demo.unconfigured 7 "weather in Paris" 5 (Demo.fresh Demo.unconfigured)
    = Throw no_embedder_error (Demo.fresh Demo.unconfigured)
  /\ collection (constructor Demo.unconfigured (Some Demo.model) Demo.store_with_core) = None
  /\ exists warning,
       console (constructor Demo.unconfigured (Some Demo.model) Demo.store_with_core)
         = [(WARN, warning)].
Proof.
  apply (getAvailableTools_without_embedder Demo.unconfigured 7 "weather in Paris" 5
           (Some Demo.model) Demo.store_with_core (Demo.fresh Demo.unconfigured)).
  - reflexivity.
  - reflexivity.
Defined.

(** ** Tool synthesis *)
Section Synthesis.

Variable X : externals.

Lemma executeToolCreation_with_client (fuel : nat) (taskDescription : string)
    (suggestedName : option string) (s : state) (model : string) :
  llmClient s = Some model ->
  executeToolCreation X fuel taskDescription suggestedName s =
    try_catch
      (creation_attempt X (_getOrCreateCollection X fuel) model taskDescription suggestedName)
      creation_failed (announce taskDescription s).
Proof.
  intros Hc. unfold executeToolCreation, executeToolCreation_body.
  unfold bind at 1, read. rewrite Hc. reflexivity.
Qed.

Lemma executeToolCreation_without_client (fuel : nat) (taskDescription : string)
    (suggestedName : option string) (s : state) :
  llmClient s = None ->
  executeToolCreation X fuel taskDescription suggestedName s =
    Throw "LLMClient is required for tool creation execution." s.
Proof.
  intros Hc. unfold executeToolCreation, executeToolCreation_body.
  unfold bind at 1, read. rewrite Hc. reflexivity.
Qed.

Lemma creation_failed_returns (message : string) (s : state) :
  creation_failed message s =
    Ret (error_result message)
      (push_log ERROR ("Error during tool creation execution: " +:+ message) s).
Proof. reflexivity. Qed.

Lemma try_catch_creation_failed (m : M obj) (s : state) :
  thrown (try_catch m creation_failed s) = false.
Proof. unfold try_catch. destruct (m s); reflexivity. Qed.

(** The attempt stops at the first of extraction, parsing and validation
    that fails, right after the completion call. *)
Lemma creation_attempt_rejects (init : M (option string)) (model taskDescription : string)
    (suggestedName : option string) (s : state) (rawResponse message : string) :
  fault X (length (trace s)) = None ->
  Text.trim <$> completion X model (make_prompt taskDescription suggestedName)
    = Some rawResponse ->
  rawResponse <> EmptyString ->
  synthesize X rawResponse = inl message ->
  creation_attempt X init model taskDescription suggestedName s =
    Throw message (push_call (completion_call model taskDescription suggestedName) s).
Proof.
  intros Hf Hraw Hne Hsyn. unfold creation_attempt.
  unfold bind at 1, chat_completion, external. rewrite Hf. unfold ret.
  rewrite Hraw. destruct rawResponse as [|a r]; [contradiction|].
  unfold bind at 1. rewrite Hsyn. reflexivity.
Qed.

Lemma creation_attempt_accepts (init : M (option string)) (model taskDescription : string)
    (suggestedName : option string) (s : state) (rawResponse : string) (def : obj) :
  fault X (length (trace s)) = None ->
  Text.trim <$> completion X model (make_prompt taskDescription suggestedName)
    = Some rawResponse ->
  rawResponse <> EmptyString ->
  synthesize X rawResponse = inr def ->
  creation_attempt X init model taskDescription suggestedName s =
    (await addedTool <- addTool_body X init def false ;
     run log LOG ("Successfully created and stored new tool: '"
                  +:+ interpolate X (get_field addedTool "name") +:+ "'") ;
     ret addedTool)
      (push_call (completion_call model taskDescription suggestedName) s).
Proof.
  intros Hf Hraw Hne Hsyn. unfold creation_attempt.
  unfold bind at 1, chat_completion, external. rewrite Hf. unfold ret at 1.
  rewrite Hraw. destruct rawResponse as [|a r]; [contradiction|].
  unfold bind at 1. rewrite Hsyn. reflexivity.
Qed.

End Synthesis.

(** C3, as the claim states it, fails: without a completion client the
    call raises; the guard sits before the try block. *)
Lemma executeToolCreation_raises_without_client :
  executeToolCreation Demo.configured 7 "get the weather for a city" None
    (Demo.clientless Demo.configured)
  = Throw "LLMClient is required for tool creation execution."
      (Demo.clientless Demo.configured).
Proof. reflexivity. Qed.

(** C3, amended. Without a completion client executeToolCreation raises at
    once. With one it never raises: whatever fails inside its try block,
    from the completion call to the storing of the tool, comes back as a
    result object whose error field carries the message. *)
Theorem executeToolCreation_raises_only_without_client (X : externals) (fuel : nat)
    (taskDescription : string) (suggestedName : option string) (s : state) :
  match llmClient s with
  | None =>
      executeToolCreation X fuel taskDescription suggestedName s =
        Throw "LLMClient is required for tool creation execution." s
  | Some model =>
      thrown (executeToolCreation X fuel taskDescription suggestedName s) = false
      /\ forall message s',
           creation_attempt X (_getOrCreateCollection X fuel) model
             taskDescription suggestedName (announce taskDescription s) = Throw message s' ->
           executeToolCreation X fuel taskDescription suggestedName s =
             Ret (error_result message)
               (push_log ERROR ("Error during tool creation execution: " +:+ message) s')
  end.
Proof.
  destruct (llmClient s) as [model|] eqn:Hc.
  - rewrite (executeToolCreation_with_client X fuel _ _ s model Hc). split.
    + apply try_catch_creation_failed.
    + intros message s' H. unfold try_catch. rewrite H. reflexivity.
  - apply executeToolCreation_without_client, Hc.
Qed.

(** ** Failed synthesis and the catalog *)

Lemma synthesize_failure (X : externals) (rawResponse message : string) :
  synthesize X rawResponse = inl message <->
  extract_json rawResponse = inl message
  \/ (exists toolJson, extract_json rawResponse = inr toolJson
        /\ parse_json X toolJson = inl message)
  \/ (exists toolJson v, extract_json rawResponse = inr toolJson
        /\ parse_json X toolJson = inr v /\ validate X v = inl message).
Proof.
  unfold synthesize. destruct (extract_json rawResponse) as [m|j].
  - split; [intros [= ->]; auto|].
    intros [H | [(j & H & _) | (j & v & H & _)]]; congruence.
  - destruct (parse_json X j) as [m|v] eqn:Hp.
    + split; [intros [= ->]; right; left; eauto|].
      intros [H | [(j' & [= <-] & H) | (j' & v & [= <-] & H & _)]]; congruence.
    + split; [intros H; right; right; eauto|].
      intros [H | [(j' & [= <-] & H) | (j' & v' & [= <-] & H & H')]]; congruence.
Qed.

Lemma extract_json_unfold (rawResponse : string) :
  extract_json rawResponse =
    match Text.match_json_fence rawResponse with
    | Some (String a c) => inr (String a c)
    | _ => if braced rawResponse then inr rawResponse else inl (format_error rawResponse)
    end.
Proof.
  unfold extract_json, braced, format_error.
  destruct (Text.match_json_fence rawResponse) as [[|a c]|]; reflexivity.
Qed.

(** A response without a fenced block that is not a braced object fails
    at extraction. *)
Lemma synthesize_without_fence (X : externals) (rawResponse : string) :
  ~ has_fenced_block rawResponse ->
  braced rawResponse = false ->
  synthesize X rawResponse = inl (format_error rawResponse).
Proof.
  intros Hno Hb. unfold synthesize. rewrite extract_json_unfold.
  destruct (Text.match_json_fence rawResponse) as [c|] eqn:Hm.
  - exfalso. apply Hno. apply match_json_fence_iff. rewrite Hm. eauto.
  - rewrite Hb. reflexivity.
Qed.

(** A definition whose parameters have no (truthy) properties fails at
    validation. *)
Lemma validate_without_properties (X : externals) (o : obj) :
  truthy (prop (get_field o "parameters") "properties") = false ->
  exists message, validate X (VObj o) = inl message.
Proof.
  intros H. unfold validate.
  destruct (negb (truthy (get_field o "name")) || negb (truthy (get_field o "description"))
            || negb (truthy (get_field o "parameters"))); [eauto|].
  rewrite H. simpl. rewrite !orb_true_r. eauto.
Qed.

(** C6. Whenever extraction, parsing or validation of the completion
    fails, executeToolCreation returns the error result, whose error field
    is a non-empty string; the only call that left the process is the
    completion call, so nothing was upserted and the catalog is the one
    the call started with. *)
Theorem failed_synthesis_leaves_catalog (X : externals) (fuel : nat)
    (taskDescription : string) (suggestedName : option string) (s : state)
    (model rawResponse message : string) :
  llmClient s = Some model ->
  fault X (length (trace s)) = None ->
  Text.trim <$> completion X model (make_prompt taskDescription suggestedName)
    = Some rawResponse ->
  rawResponse <> EmptyString ->
  synthesize X rawResponse = inl message ->
  exists s',
    executeToolCreation X fuel taskDescription suggestedName s = Ret (error_result message) s'
    /\ (exists e, get_field (error_result message) "error" = VStr e /\ e <> EmptyString)
    /\ catalog s' = catalog s
    /\ trace s' = (trace s ++ [completion_call model taskDescription suggestedName])%list.
Proof.
  intros Hc Hf Hraw Hne Hsyn.
  rewrite (executeToolCreation_with_client X fuel _ _ s model Hc).
  unfold try_catch.
  rewrite (creation_attempt_rejects X _ model taskDescription suggestedName
             (announce taskDescription s) rawResponse message Hf Hraw Hne Hsyn).
  rewrite creation_failed_returns. eexists. split; [reflexivity|].
  split; [|split; reflexivity].
  eexists. split; [reflexivity | discriminate].
Qed.

(** C6 on the answer that lacks parameters.properties. *)
Lemma failed_synthesis_leaves_catalog_witness :
  exists s',
    executeToolCreation Demo.careless 7 "get the weather for a city" None
      (Demo.fresh Demo.careless)
    = Ret (error_result
             "Generated tool parameters are not a valid JSON schema object. Definition: {}") s'
    /\ (exists e,
          get_field (error_result
            "Generated tool parameters are not a valid JSON schema object. Definition: {}")
            "error" = VStr e /\ e <> EmptyString)
    /\ catalog s' = catalog (Demo.fresh Demo.careless)
    /\ trace s' =
         (trace (Demo.fresh Demo.careless)
          ++ [completion_call Demo.model "get the weather for a city" None])%list.
Proof.
  apply (failed_synthesis_leaves_catalog Demo.careless 7 "get the weather for a city" None
           (Demo.fresh Demo.careless) Demo.model (Demo.fenced Demo.no_properties_json)).
  - reflexivity.
  - reflexivity.
  - vm_compute. reflexivity.
  - discriminate.
  - vm_compute. reflexivity.
Defined.

(** The other example of the claim: an answer with no fenced block. *)
Example chatty_answer_is_rejected :
  exists s',
    executeToolCreation Demo.chatty 7 "get the weather for a city" None (Demo.fresh Demo.chatty)
    = Ret (error_result (format_error "I could not come up with a tool.")) s'
    /\ catalog s' = catalog (Demo.fresh Demo.chatty).
Proof. eexists. split; [vm_compute; reflexivity | reflexivity]. Qed.

(** ** Extraction *)

(** Without a fenced block the raw response is accepted exactly when it
    is braced. *)
Lemma extract_json_without_block (rawResponse : string) :
  ~ has_fenced_block rawResponse ->
  extract_json rawResponse =
    if braced rawResponse then inr rawResponse else inl (format_error rawResponse).
Proof.
  intros Hno. rewrite extract_json_unfold.
  destruct (Text.match_json_fence rawResponse) as [c|] eqn:Hm; [|reflexivity].
  exfalso. apply Hno, match_json_fence_iff. rewrite Hm. eauto.
Qed.

(** C8, as the claim states it, fails: a response may hold a fenced block
    and still have none of its contents taken. The block below is empty;
    the code treats it as if there were no block and reports the format
    error. *)
Lemma empty_fenced_block_is_not_taken :
  has_fenced_block "```json```"
  /\ ~ exists contents,
         fenced_block "```json```" contents
         /\ extract_json "```json```" = inr contents.
Proof.
  split.
  - exists EmptyString, EmptyString, EmptyString, EmptyString, EmptyString. repeat split.
  - intros (c & _ & H). vm_compute in H. discriminate.
Qed.

(** C8, amended. The pattern finds a match exactly when the response holds
    a fenced block. When the match captures something, that is the
    contents of a fenced block and it is the text taken. When there is no
    fenced block, or the captured contents are empty, the raw response is
    accepted if and only if it starts with an opening and ends with a
    closing brace, and in every other case the step fails with the format
    error. *)
Theorem extract_json_cases (rawResponse : string) :
  (has_fenced_block rawResponse <-> is_Some (Text.match_json_fence rawResponse))
  /\ match Text.match_json_fence rawResponse with
     | Some (String a c) =>
         fenced_block rawResponse (String a c)
         /\ extract_json rawResponse = inr (String a c)
     | _ =>
         extract_json rawResponse =
           if braced rawResponse then inr rawResponse else inl (format_error rawResponse)
     end.
Proof.
  split.
  - symmetry. apply match_json_fence_iff.
  - rewrite extract_json_unfold.
    destruct (Text.match_json_fence rawResponse) as [[|a c]|] eqn:Hm; try reflexivity.
    split; [apply match_json_fence_sound, Hm | reflexivity].
Qed.

(** ** What [addTool] fills in *)

Lemma get_field_set_field_eq (o : obj) (k : string) (v : value) :
  get_field (set_field o k v) k = v.
Proof.
  induction o as [|[k' v'] o IH]; simpl.
  - rewrite String.eqb_refl. reflexivity.
  - destruct (String.eqb k' k) eqn:E; simpl; rewrite E; [reflexivity | exact IH].
Qed.

Lemma get_field_set_field_ne (o : obj) (k k' : string) (v : value) :
  k <> k' -> get_field (set_field o k v) k' = get_field o k'.
Proof.
  intros Hne. induction o as [|[k0 v0] o IH]; simpl.
  - destruct (String.eqb_spec k k'); [contradiction | reflexivity].
  - destruct (String.eqb_spec k0 k) as [->|Hk]; simpl.
    + destruct (String.eqb_spec k k'); [contradiction | reflexivity].
    + rewrite IH. reflexivity.
Qed.

Section Defaults.

Variable X : externals.

Lemma assign_defaults_missing (def : obj) (isCore : bool) (s : state) :
  truthy (get_field def "id") = false ->
  truthy (get_field def "type") = false ->
  assign_defaults X def isCore s =
    Ret (with_generated_id_and_type X def isCore s) (push_call CUuid s).
Proof.
  intros Hid Hty. unfold assign_defaults, with_generated_id_and_type.
  rewrite Hid. unfold bind, new_uuid, ret.
  rewrite get_field_set_field_ne by discriminate. rewrite Hty. reflexivity.
Qed.

Lemma assign_defaults_present (def : obj) (isCore : bool) (s : state) :
  truthy (get_field def "id") = true ->
  truthy (get_field def "type") = true ->
  assign_defaults X def isCore s = Ret def s.
Proof.
  intros Hid Hty. unfold assign_defaults. rewrite Hid.
  unfold bind, ret. rewrite Hty. reflexivity.
Qed.

Lemma with_generated_id_and_type_fields (def : obj) (isCore : bool) (s : state) :
  get_field (with_generated_id_and_type X def isCore s) "type"
    = VStr (if isCore then "core" else "llm_generated")
  /\ get_field (with_generated_id_and_type X def isCore s) "id"
    = VStr (uuidv4 X (length (trace s))).
Proof.
  unfold with_generated_id_and_type. split.
  - apply get_field_set_field_eq.
  - rewrite get_field_set_field_ne by discriminate. apply get_field_set_field_eq.
Qed.

(** Filling in the defaults always succeeds, and touches neither the
    cached handle nor the catalog. *)
Lemma assign_defaults_returns (def : obj) (isCore : bool) (s : state) :
  exists d s', assign_defaults X def isCore s = Ret d s'
    /\ collection s' = collection s /\ catalog s' = catalog s
    /\ llmClient s' = llmClient s.
Proof.
  unfold assign_defaults.
  destruct (truthy (get_field def "id")); unfold bind, new_uuid, ret; eauto 10.
Qed.



End Defaults.


(** ** The method bodies after a handshake that returns

    None of the lemmas of this part applies to the class as it is, whose
    handshake does not return; they describe what the statements after
    the first [await] of each method do once the handle is there. [init]
    stands for any such first step. *)
Section Bodies.

Variable X : externals.
Variable init : M (option string).

Lemma getTool_body_found (id : string) (s s1 : state) (c : option string) (e : entry) :
  init s = Ret c s1 ->
  fault X (length (trace s1)) = None ->
  catalog s1 !! id = Some e ->
  getTool_body X init id s = Ret (Some (metadata e)) (push_call (CGet id) s1).
Proof.
  intros Hi Hf He. unfold getTool_body. rewrite (bind_ret _ _ _ _ _ Hi).
  unfold try_catch, bind, collection_get, external. rewrite Hf. simpl. rewrite He.
  reflexivity.
Qed.

Lemma getTool_body_absent (id : string) (s s1 : state) (c : option string) :
  init s = Ret c s1 ->
  fault X (length (trace s1)) = None ->
  catalog s1 !! id = None ->
  getTool_body X init id s = Ret None (push_call (CGet id) s1).
Proof.
  intros Hi Hf He. unfold getTool_body. rewrite (bind_ret _ _ _ _ _ Hi).
  unfold try_catch, bind, collection_get, external. rewrite Hf. simpl. rewrite He.
  reflexivity.
Qed.

Lemma getTool_body_fault (id : string) (s s1 : state) (c : option string) (msg : string) :
  init s = Ret c s1 ->
  fault X (length (trace s1)) = Some msg ->
  getTool_body X init id s =
    Ret None (push_log ERROR ("Error retrieving tool ID '" +:+ id +:+ "': " +:+ msg)
                (push_call (CGet id) s1)).
Proof.
  intros Hi Hf. unfold getTool_body. rewrite (bind_ret _ _ _ _ _ Hi).
  unfold try_catch, bind, collection_get, external. rewrite Hf. reflexivity.
Qed.


(** Whatever [addTool] returns is in the catalog, under its id. *)
Lemma addTool_body_stores (def : obj) (isCore : bool) (s s' : state) (d : obj) :
  addTool_body X init def isCore s = Ret d s' ->
  exists k, get_field d "id" = VStr k
    /\ catalog s' !! k = Some (Entry d (embedding_text X d)).
Proof.
  unfold addTool_body. unfold bind at 1.
  destruct (assign_defaults X def isCore s) as [d0 s0| |]; [|discriminate..].
  unfold bind at 1. destruct (init s0) as [c s1| |]; [|discriminate..].
  unfold store_tool, try_catch, bind at 1, collection_upsert, external.
  destruct (fault X (length (trace s1))); simpl.
  { unfold bind, log, throw. discriminate. }
  destruct (get_field d0 "id") eqn:Hid; simpl; try discriminate.
  unfold bind, log, ret. intros [= <- <-]. exists s2. split; [exact Hid|].
  simpl. apply lookup_insert_eq.
Qed.

(** The relevant tools never include the core tool. *)
Lemma relevant_tools_not_core (context : string) (maxResults : Z) (s s' : state)
    (relevant : list obj) :
  relevant_tools X context maxResults s = Ret relevant s' ->
  Forall (fun tool => not_core tool = true) relevant.
Proof.
  unfold relevant_tools.
  destruct (truthy (VStr context) && bool_decide (is_Some (embedder X))).
  - unfold try_catch, bind at 1, collection_query, external.
    destruct (fault X (length (trace s))).
    + unfold bind, log, ret. intros [= <- _]. constructor.
    + unfold ret. intros [= <- _]. apply Forall_forall.
      intros tool Hin. apply list_elem_of_In, filter_In in Hin. tauto.
  - destruct (bool_decide (is_Some (embedder X)));
      unfold bind, log, ret; intros [= <- _]; constructor.
Qed.

(** Whatever [getAvailableTools] returns was built on one of its two
    paths: the constant in front of the relevant tools as they came, or
    the fetched core tool in front of them, deduplicated and cut. *)
Lemma getAvailableTools_body_result (context : string) (maxResults : Z) (s s' : state)
    (tools : list obj) :
  getAvailableTools_body X init context maxResults s = Ret tools s' ->
  exists relevant,
    Forall (fun tool => not_core tool = true) relevant
    /\ (tools = TOOL_CREATION_TOOL_DEF :: relevant
        \/ exists core,
             tools = slice0 (unique_tools [] (core :: relevant)) (maxResults + 1)).
Proof.
  unfold getAvailableTools_body. unfold bind at 1.
  destruct (init s) as [c s1| |]; [|discriminate..].
  unfold bind at 1.
  destruct (relevant_tools X context maxResults s1) as [relevant s2| |] eqn:Hrel;
    [|discriminate..].
  apply relevant_tools_not_core in Hrel.
  unfold bind at 1.
  destruct (getTool_body X init TOOL_CREATION_TOOL_ID s2) as [[core|] s3| |];
    [| |discriminate..].
  - unfold ret. intros [= <- _]. exists relevant. split; [exact Hrel|]. right. eauto.
  - unfold bind, log, ret. intros [= <- _]. exists relevant. split; [exact Hrel|]. auto.
Qed.

End Bodies.

(** ** Merging the core tool with the relevant tools *)
Section Merge.

Lemma same_value_zero_sym (a b : value) :
  same_value_zero a b = same_value_zero b a.
Proof.
  destruct a, b; simpl; try reflexivity.
  - destruct b, b0; reflexivity.
  - destruct (Qeq_bool q q0) eqn:E1, (Qeq_bool q0 q) eqn:E2; try reflexivity.
    + apply Qeq_bool_iff, Qeq_sym, Qeq_bool_iff in E1. congruence.
    + apply Qeq_bool_iff, Qeq_sym, Qeq_bool_iff in E2. congruence.
  - apply String.eqb_sym.
Qed.

Lemma unique_tools_unseen (seen : list value) (tools : list obj) (tool : obj) :
  In tool (unique_tools seen tools) ->
  In tool tools /\ existsb (same_value_zero (get_field tool "id")) seen = false.
Proof.
  revert seen. induction tools as [|t rest IH]; intros seen; simpl; [tauto|].
  destruct (existsb (same_value_zero (get_field t "id")) seen) eqn:E.
  - intros H. destruct (IH _ H). auto.
  - intros [<- | H]; [auto|].
    destruct (IH _ H) as [Hin Hex]. split; [auto|].
    simpl in Hex. apply orb_false_elim in Hex. tauto.
Qed.

Lemma unique_tools_distinct (seen : list value) (tools : list obj) :
  distinct_ids (unique_tools seen tools).
Proof.
  revert seen. induction tools as [|t rest IH]; intros seen; simpl; [exact I|].
  destruct (existsb (same_value_zero (get_field t "id")) seen); [apply IH|].
  simpl. split; [|apply IH].
  intros other Hin. apply unique_tools_unseen in Hin as [_ Hex].
  simpl in Hex. apply orb_false_elim in Hex as [Hex _].
  rewrite same_value_zero_sym. exact Hex.
Qed.

Lemma In_take {A} (k : nat) (l : list A) (x : A) : In x (take k l) -> In x l.
Proof.
  revert k. induction l as [|y l IH]; intros [|k]; simpl; try tauto.
  intros [-> | H]; [auto | right; eapply IH, H].
Qed.

Lemma distinct_ids_take (k : nat) (tools : list obj) :
  distinct_ids tools -> distinct_ids (take k tools).
Proof.
  revert k. induction tools as [|t rest IH]; intros [|k]; simpl; try tauto.
  intros [Hhd Htl]. split; [|apply IH, Htl].
  intros other Hin. eapply Hhd, In_take, Hin.
Qed.

Lemma slice0_cons {A} (x : A) (l : list A) (n : Z) :
  0 <= n -> slice0 (x :: l) (n + 1) = x :: take (Z.to_nat n) l.
Proof.
  intros Hn. unfold slice0.
  destruct (Z.ltb_spec (n + 1) 0) as [Hlt|_]; [lia|].
  rewrite length_cons, Nat2Z.inj_succ.
  destruct (Z.le_ge_cases n (Z.of_nat (length l))) as [Hle|Hge].
  - rewrite Z.min_l by lia.
    replace (Z.to_nat (n + 1)) with (S (Z.to_nat n)) by lia. reflexivity.
  - rewrite Z.min_r by lia.
    replace (Z.to_nat (Z.succ (Z.of_nat (length l)))) with (S (length l)) by lia.
    simpl. f_equal. rewrite !take_ge by lia. reflexivity.
Qed.

(** The list built on the regular path: the fetched core tool first, at
    most [maxResults] others after it, no id twice, and none of the
    others with the id of the core tool. *)
Lemma merged_tools_shape (core : obj) (inner : list obj) (maxResults : Z) :
  0 <= maxResults ->
  exists others,
    slice0 (unique_tools [] (core :: List.filter not_core inner)) (maxResults + 1)
      = core :: others
    /\ (length others <= Z.to_nat maxResults)%nat
    /\ distinct_ids (core :: others)
    /\ Forall (fun tool => not_core tool = true) others.
Proof.
  intros Hn. simpl unique_tools. rewrite slice0_cons by exact Hn.
  eexists. split; [reflexivity|]. split; [|split].
  - rewrite length_take. lia.
  - pose proof (unique_tools_distinct [] (core :: List.filter not_core inner)) as Hd.
    simpl in Hd. destruct Hd as [Hhd Htl]. split.
    + intros other Hin. eapply Hhd, In_take, Hin.
    + apply distinct_ids_take, Htl.
  - apply Forall_forall. intros tool Hin.
    apply list_elem_of_In, In_take in Hin.
    apply unique_tools_unseen in Hin as [Hin _].
    apply filter_In in Hin. tauto.
Qed.

End Merge.

Section Retrieval.

Variable X : externals.
Variable init : M (option string).

(** A first step that hands back the cached handle and nothing else. *)
Hypothesis init_returns : forall s, init s = Ret (collection s) s.

(** [addTool] then [getTool] on the id of the result. *)
Lemma addTool_getTool_body_roundtrip (def : obj) (isCore : bool) (s s' : state) (d : obj) :
  addTool_body X init def isCore s = Ret d s' ->
  fault X (length (trace s')) = None ->
  exists k, get_field d "id" = VStr k
    /\ getTool_body X init k s' = Ret (Some d) (push_call (CGet k) s').
Proof.
  intros Hadd Hf. destruct (addTool_body_stores X init _ _ _ _ _ Hadd) as (k & Hk & Hst).
  exists k. split; [exact Hk|].
  rewrite (getTool_body_found X init k s' s' (collection s') _ (init_returns s') Hf Hst).
  reflexivity.
Qed.

(** The empty context: no query, and the stored core tool alone. *)
Lemma getAvailableTools_body_empty_context (maxResults : Z) (s : state) (e : entry) :
  0 <= maxResults ->
  is_Some (embedder X) ->
  fault X (length (trace s)) = None ->
  catalog s !! TOOL_CREATION_TOOL_ID = Some e ->
  getAvailableTools_body X init EmptyString maxResults s =
    Ret [metadata e] (push_call (CGet TOOL_CREATION_TOOL_ID) s).
Proof.
  intros Hn [key Hkey] Hf He. unfold getAvailableTools_body.
  rewrite (bind_ret _ _ _ _ _ (init_returns s)).
  unfold relevant_tools. simpl truthy. simpl andb. rewrite Hkey.
  rewrite bool_decide_eq_true_2 by eauto.
  unfold bind at 1, ret at 1.
  rewrite (bind_ret _ _ _ _ _
             (getTool_body_found X init _ s s (collection s) e (init_returns s) Hf He)).
  simpl unique_tools. rewrite slice0_cons by exact Hn. rewrite take_nil. reflexivity.
Qed.

End Retrieval.

(** The defensive path skips both the set and the slice: with the core
    tool missing from the store and maxResults 0, the constant is followed
    by the one tool the query was asked for. *)
Example fallback_path_exceeds_maxResults :
  getAvailableTools_body Demo.configured (read collection) "weather" 0
    (Demo.connected Demo.store_without_core)
  = Ret [TOOL_CREATION_TOOL_DEF; Demo.stored_weather_def]
      (push_log ERROR "Critical Error: Core Tool Creation Tool definition is missing!"
         (push_call (CGet TOOL_CREATION_TOOL_ID)
            (push_call (CQuery "weather" 1) (Demo.connected Demo.store_without_core)))).
Proof. vm_compute. reflexivity. Qed.

(** A negative maxResults empties the list on the regular path. *)
Example negative_maxResults_drops_core_tool :
  getAvailableTools_body Demo.configured (read collection) EmptyString (-1)
    (Demo.connected Demo.store_with_core)
  = Ret [] (push_call (CGet TOOL_CREATION_TOOL_ID) (Demo.connected Demo.store_with_core)).
Proof. vm_compute. reflexivity. Qed.

(** The swallowed error, run: the existence check fails, nothing is
    upserted, and the step returns over an empty catalog. *)
Example swallowed_error_leaves_store_empty :
  ensureToolCreationTool_body Demo.flaky (read collection)
    (addTool_body Demo.flaky (read collection)) (Demo.connected ∅)
  = Ret tt (push_log ERROR "Error checking/adding core tool: Failed to fetch"
              (push_call (CGet TOOL_CREATION_TOOL_ID) (Demo.connected ∅))).
Proof. vm_compute. reflexivity. Qed.

(** ** More on the extraction pattern *)
Section Capture.

Import Text.

Lemma strip_prefix_fence_none (c : ascii) (s : string) :
  is_backtick c = false -> strip_prefix fence (String c s) = None.
Proof.
  unfold is_backtick. intros H.
  change (strip_prefix fence (String c s))
    with (if Ascii.eqb "`"%char c then strip_prefix "``" s else None).
  rewrite Ascii.eqb_sym, H. reflexivity.
Qed.

Lemma strip_prefix_open_none (c : ascii) (s : string) :
  is_backtick c = false -> strip_prefix fence_open (String c s) = None.
Proof.
  unfold is_backtick. intros H.
  change (strip_prefix fence_open (String c s))
    with (if Ascii.eqb "`"%char c then strip_prefix "``json" s else None).
  rewrite Ascii.eqb_sym, H. reflexivity.
Qed.

Lemma ends_clean_cons (c a : ascii) (s : string) :
  ends_clean (String c (String a s)) = ends_clean (String a s).
Proof. reflexivity. Qed.

(** Inside a body without backticks that ends on a character other than
    white space, the closing fence is not in sight. *)
Lemma closes_inside_body (b rest : string) :
  no_backtick b = true -> ends_clean b = true -> closes (b +:+ rest) = false.
Proof.
  induction b as [|c b IH]; [discriminate|].
  intros Hnb Hend. simpl in Hnb. apply andb_prop in Hnb as [Hc Hnb].
  apply negb_true_iff in Hc.
  rewrite app_cons, closes_eq, strip_prefix_fence_none by exact Hc.
  destruct b as [|a b].
  - simpl in Hend. apply negb_true_iff in Hend. rewrite Hend. reflexivity.
  - rewrite ends_clean_cons in Hend. rewrite (IH Hnb Hend).
    destruct (is_space c); reflexivity.
Qed.

Lemma lazy_capture_body (b rest : string) :
  no_backtick b = true ->
  b = EmptyString \/ ends_clean b = true ->
  closes rest = true ->
  lazy_capture (b +:+ rest) = Some b.
Proof.
  intros Hnb Hend Hcl. induction b as [|c b IH].
  - rewrite app_empty, lazy_capture_eq, Hcl. reflexivity.
  - destruct Hend as [Hend|Hend]; [discriminate|].
    rewrite lazy_capture_eq, (closes_inside_body _ rest Hnb Hend), app_cons.
    simpl in Hnb. apply andb_prop in Hnb as [_ Hnb].
    rewrite IH; [reflexivity | exact Hnb |].
    destruct b as [|a b]; [left; reflexivity | right; exact Hend].
Qed.

Lemma after_open_skips (ws t : string) (r : string) :
  all_space ws = true -> after_open t = Some r -> after_open (ws +:+ t) = Some r.
Proof.
  intros Hws Ht. induction ws as [|a ws IH].
  - exact Ht.
  - simpl in Hws. apply andb_prop in Hws as [Ha Hws].
    rewrite app_cons, after_open_eq, Ha, (IH Hws). reflexivity.
Qed.

Lemma match_json_fence_skips (pre t : string) (r : string) :
  no_backtick pre = true ->
  match_here t = Some r ->
  match_json_fence (pre +:+ t) = Some r.
Proof.
  intros Hpre Ht. induction pre as [|a pre IH].
  - rewrite app_empty, match_json_fence_eq, Ht. reflexivity.
  - simpl in Hpre. apply andb_prop in Hpre as [Ha Hpre].
    apply negb_true_iff in Ha.
    rewrite app_cons, match_json_fence_eq.
    unfold match_here at 1. rewrite strip_prefix_open_none by exact Ha.
    apply IH, Hpre.
Qed.

(** The pattern gives back the body of a fenced block. *)
Lemma match_json_fence_body (pre ws1 body ws2 post : string) :
  no_backtick pre = true ->
  all_space ws1 = true ->
  starts_clean body = true ->
  ends_clean body = true ->
  no_backtick body = true ->
  all_space ws2 = true ->
  match_json_fence (pre +:+ fence_open +:+ ws1 +:+ body +:+ ws2 +:+ fence +:+ post)
    = Some body.
Proof.
  intros Hpre H1 Hst Hend Hnb H2.
  apply match_json_fence_skips; [exact Hpre|].
  unfold match_here. rewrite strip_prefix_app.
  apply after_open_skips; [exact H1|].
  destruct body as [|c body]; [discriminate|].
  rewrite app_cons, after_open_eq.
  simpl in Hst. apply negb_true_iff in Hst. rewrite Hst.
  rewrite <- app_cons.
  apply lazy_capture_body; [exact Hnb | right; exact Hend |].
  apply closes_complete, H2.
Qed.

(** *** What a capture looks like *)

Lemma lazy_capture_empty (s : string) :
  lazy_capture s = Some EmptyString -> closes s = true.
Proof.
  rewrite lazy_capture_eq. destruct (closes s); [reflexivity|].
  destruct s as [|a s]; [discriminate|].
  destruct (lazy_capture s); discriminate.
Qed.

Lemma closes_after_space (a : ascii) (s : string) :
  is_space a = true -> closes s = true -> closes (String a s) = true.
Proof.
  intros Ha Hs. rewrite closes_eq, Ha, Hs.
  destruct (strip_prefix fence (String a s)); reflexivity.
Qed.

Lemma lazy_capture_ends_clean (s c : string) :
  lazy_capture s = Some c -> c = EmptyString \/ ends_clean c = true.
Proof.
  revert c. induction s as [|a s IH]; intros c; rewrite lazy_capture_eq.
  - destruct (closes EmptyString); [intros [= <-]; auto | discriminate].
  - destruct (closes (String a s)) eqn:Hcl; [intros [= <-]; auto|].
    destruct (lazy_capture s) as [c'|] eqn:Hs; [|discriminate].
    intros [= <-]. right. destruct (IH c' eq_refl) as [-> | Hend].
    + simpl. apply negb_true_iff. destruct (is_space a) eqn:Ha; [|reflexivity].
      rewrite (closes_after_space a s Ha (lazy_capture_empty s Hs)) in Hcl. discriminate.
    + destruct c' as [|b c']; [discriminate | exact Hend].
Qed.

Lemma strip_prefix_extend (p c r t : string) :
  strip_prefix p c = Some r -> strip_prefix p (c +:+ t) = Some (r +:+ t).
Proof.
  intros H. apply strip_prefix_spec in H as ->.
  rewrite app_assoc'. apply strip_prefix_app.
Qed.

Lemma lazy_capture_no_fence (s c : string) :
  lazy_capture s = Some c -> includes c fence = false.
Proof.
  revert c. induction s as [|a s IH]; intros c; rewrite lazy_capture_eq.
  - destruct (closes EmptyString); [intros [= <-]; reflexivity | discriminate].
  - destruct (closes (String a s)) eqn:Hcl; [intros [= <-]; reflexivity|].
    destruct (lazy_capture s) as [c'|] eqn:Hs; [|discriminate].
    intros [= <-].
    change (includes (String a c') fence)
      with (match strip_prefix fence (String a c') with
            | Some _ => true
            | None => includes c' fence
            end).
    destruct (strip_prefix fence (String a c')) as [r|] eqn:Hp; [|apply IH; reflexivity].
    exfalso. destruct (lazy_capture_sound _ _ Hs) as (ws & post & -> & _).
    rewrite closes_eq, <- app_cons in Hcl.
    rewrite (strip_prefix_extend _ _ _ _ Hp) in Hcl. discriminate.
Qed.

Lemma after_open_from_lazy (s c : string) :
  after_open s = Some c -> exists t, lazy_capture t = Some c.
Proof.
  revert c. induction s as [|a s IH]; intros c; rewrite after_open_eq.
  - eauto.
  - destruct (is_space a); [|eauto].
    destruct (after_open s) as [r|]; [|eauto].
    intros [= <-]. apply IH. reflexivity.
Qed.

Lemma after_open_starts_clean (s c : string) :
  after_open s = Some c -> c = EmptyString \/ starts_clean c = true.
Proof.
  revert c. induction s as [|a s IH]; intros c; rewrite after_open_eq.
  - rewrite lazy_capture_eq. destruct (closes EmptyString); [intros [= <-]; auto | discriminate].
  - destruct (is_space a) eqn:Ha.
    + destruct (after_open s) as [r|] eqn:Hs; [intros [= <-]; apply IH; reflexivity|].
      rewrite lazy_capture_eq. destruct (closes (String a s)); [intros [= <-]; auto|].
      destruct (lazy_capture s) as [c'|] eqn:Hl; [|discriminate].
      exfalso. destruct (after_open_lazy s) as [r Hr]; [rewrite Hl; eauto|]. congruence.
    + rewrite lazy_capture_eq. destruct (closes (String a s)); [intros [= <-]; auto|].
      destruct (lazy_capture s) as [c'|]; [|discriminate].
      intros [= <-]. right. simpl. rewrite Ha. reflexivity.
Qed.

Lemma match_json_fence_from_open (s c : string) :
  match_json_fence s = Some c -> exists t, after_open t = Some c.
Proof.
  induction s as [|a s IH]; rewrite match_json_fence_eq; unfold match_here.
  - destruct (strip_prefix fence_open EmptyString) as [rest|]; [|discriminate].
    destruct (after_open rest) eqn:H; [intros [= <-]; eauto | discriminate].
  - destruct (strip_prefix fence_open (String a s)) as [rest|].
    + destruct (after_open rest) eqn:H; [intros [= <-]; eauto | exact IH].
    + exact IH.
Qed.

End Capture.

(** X1. A fenced answer is extracted exactly: when the text before the
    block has no backtick, and the body between the fences has no
    backtick, is not empty and neither starts nor ends with white space,
    the text handed to JSON.parse is that body, whatever white space
    surrounds it inside the fences and whatever follows the block. *)
Theorem extract_json_fenced_body (pre ws1 body ws2 post : string) :
  no_backtick pre = true ->
  Text.all_space ws1 = true ->
  starts_clean body = true ->
  ends_clean body = true ->
  no_backtick body = true ->
  Text.all_space ws2 = true ->
  extract_json (pre +:+ Text.fence_open +:+ ws1 +:+ body +:+ ws2 +:+ Text.fence +:+ post)
    = inr body.
Proof.
  intros Hpre H1 Hst Hend Hnb H2.
  rewrite extract_json_unfold,
    (match_json_fence_body pre ws1 body ws2 post Hpre H1 Hst Hend Hnb H2).
  destruct body; [discriminate | reflexivity].
Qed.

(** X1 on the example answer of the prompt, with a sentence before and
    after the block. *)
Lemma extract_json_fenced_body_witness :
  extract_json ("Here is the tool:" +:+ Demo.newline +:+ Text.fence_open +:+ Demo.newline
                +:+ Demo.weather_json +:+ Demo.newline +:+ Text.fence
                +:+ Demo.newline +:+ "Let me know if it fits.")
    = inr Demo.weather_json.
Proof.
  apply (extract_json_fenced_body ("Here is the tool:" +:+ Demo.newline) Demo.newline
           Demo.weather_json Demo.newline (Demo.newline +:+ "Let me know if it fits.")).
  - reflexivity.
  - reflexivity.
  - reflexivity.
  - vm_compute. reflexivity.
  - vm_compute. reflexivity.
  - reflexivity.
Defined.

(** X2. Whatever the extraction step accepts is either the whole response,
    which then starts and ends with a brace, or the contents of a fenced
    block of the response that are not empty, have no white space at
    either end and hold no closing fence. *)
Theorem extract_json_accepts (rawResponse toolJson : string) :
  extract_json rawResponse = inr toolJson ->
  (toolJson = rawResponse /\ braced rawResponse = true)
  \/ (fenced_block rawResponse toolJson
      /\ starts_clean toolJson = true
      /\ ends_clean toolJson = true
      /\ Text.includes toolJson Text.fence = false).
Proof.
  rewrite extract_json_unfold.
  destruct (Text.match_json_fence rawResponse) as [[|a c]|] eqn:Hm.
  - destruct (braced rawResponse); [intros [= <-]; auto | discriminate].
  - intros [= <-]. right.
    destruct (match_json_fence_from_open _ _ Hm) as (t & Ht).
    destruct (after_open_from_lazy _ _ Ht) as (u & Hu).
    split; [apply match_json_fence_sound, Hm|].
    split; [destruct (after_open_starts_clean _ _ Ht); [discriminate | assumption]|].
    split; [destruct (lazy_capture_ends_clean _ _ Hu); [discriminate | assumption]|].
    apply (lazy_capture_no_fence _ _ Hu).
  - destruct (braced rawResponse); [intros [= <-]; auto | discriminate].
Qed.

(** X2 on a fenced answer padded with blank lines. *)
Lemma extract_json_accepts_witness :
  (Demo.weather_json = Demo.fenced Demo.weather_json
   /\ braced (Demo.fenced Demo.weather_json) = true)
  \/ (fenced_block (Demo.fenced Demo.weather_json) Demo.weather_json
      /\ starts_clean Demo.weather_json = true
      /\ ends_clean Demo.weather_json = true
      /\ Text.includes Demo.weather_json Text.fence = false).
Proof.
  apply (extract_json_accepts (Demo.fenced Demo.weather_json) Demo.weather_json).
  vm_compute. reflexivity.
Defined.

(** ** Validation *)

(** X3. Validation accepts a parsed answer exactly when it is a plain
    object with a truthy name, a truthy description, and parameters that
    are themselves a plain object with a truthy type and truthy
    properties; the accepted object is the answer itself. Arrays, strings
    and numbers in the place of the parameters are refused, and nothing
    else about the fields is looked at. *)
Theorem validate_accepts_iff (X : externals) (v : value) (o : obj) :
  validate X v = inr o <->
  v = VObj o
  /\ truthy (get_field o "name") = true
  /\ truthy (get_field o "description") = true
  /\ exists p, get_field o "parameters" = VObj p
       /\ truthy (get_field p "type") = true
       /\ truthy (get_field p "properties") = true.
Proof.
  split.
  - unfold validate.
    destruct v as [| | | | |items|fields]; try discriminate.
    destruct (truthy (get_field fields "name")) eqn:Hn; [|discriminate].
    destruct (truthy (get_field fields "description")) eqn:Hd; [|discriminate].
    destruct (get_field fields "parameters") as [| |b|q|str|items|p] eqn:Hp;
      simpl; try discriminate.
    + destruct b; discriminate.
    + destruct (match Qnum q with 0 => false | _ => true end); discriminate.
    + destruct str; discriminate.
    + destruct (truthy (get_field p "type")) eqn:Ht; [|discriminate].
      destruct (truthy (get_field p "properties")) eqn:Hpr; [|discriminate].
      simpl. intros [= <-]. rewrite Hn, Hd. eauto 10.
  - intros (-> & Hn & Hd & p & Hp & Ht & Hpr).
    unfold validate. rewrite Hn, Hd, Hp. simpl. rewrite Ht, Hpr. reflexivity.
Qed.

(** ** Answers that never reach the extraction *)
Section EarlyFailures.

Variable X : externals.

Lemma trimStart_all_space (c : string) :
  Text.all_space c = true -> Text.trimStart c = EmptyString.
Proof.
  induction c as [|a c IH]; [reflexivity|].
  simpl. intros H. apply andb_prop in H as [Ha Hc]. rewrite Ha. apply IH, Hc.
Qed.

Lemma trim_all_space (c : string) :
  Text.all_space c = true -> Text.trim c = EmptyString.
Proof. intros H. unfold Text.trim. rewrite (trimStart_all_space c H). reflexivity. Qed.

Lemma creation_attempt_blank (init : M (option string)) (model taskDescription : string)
    (suggestedName : option string) (s : state) :
  fault X (length (trace s)) = None ->
  (forall c, completion X model (make_prompt taskDescription suggestedName) = Some c ->
             Text.all_space c = true) ->
  creation_attempt X init model taskDescription suggestedName s =
    Throw "LLM response was empty."
      (push_call (completion_call model taskDescription suggestedName) s).
Proof.
  intros Hf Hblank. unfold creation_attempt.
  unfold bind at 1, chat_completion, external. rewrite Hf. unfold ret.
  destruct (completion X model (make_prompt taskDescription suggestedName)) as [c|] eqn:Hc.
  - simpl. rewrite (trim_all_space c (Hblank c eq_refl)). reflexivity.
  - reflexivity.
Qed.

Lemma creation_attempt_fault (init : M (option string)) (model taskDescription : string)
    (suggestedName : option string) (s : state) (msg : string) :
  fault X (length (trace s)) = Some msg ->
  creation_attempt X init model taskDescription suggestedName s =
    Throw msg (push_call (completion_call model taskDescription suggestedName) s).
Proof.
  intros Hf. unfold creation_attempt.
  unfold bind at 1, chat_completion, external. rewrite Hf. reflexivity.
Qed.

End EarlyFailures.

(** X4. An answer without content, or with white space only, counts as
    empty: executeToolCreation returns the error result with the message
    that the response was empty; the completion call is the only call
    made and the catalog is the one the call started with. *)
Theorem blank_answer_is_reported (X : externals) (fuel : nat) (taskDescription : string)
    (suggestedName : option string) (s : state) (model : string) :
  llmClient s = Some model ->
  fault X (length (trace s)) = None ->
  (forall c, completion X model (make_prompt taskDescription suggestedName) = Some c ->
             Text.all_space c = true) ->
  executeToolCreation X fuel taskDescription suggestedName s =
    Ret (error_result "LLM response was empty.")
      (push_log ERROR "Error during tool creation execution: LLM response was empty."
         (after_completion model taskDescription suggestedName s)).
Proof.
  intros Hc Hf Hblank.
  rewrite (executeToolCreation_with_client X fuel _ _ s model Hc).
  unfold try_catch.
  rewrite (creation_attempt_blank X _ model taskDescription suggestedName
             (announce taskDescription s) Hf Hblank).
  reflexivity.
Qed.

(** X4 on a model that answers with blank lines. *)
Lemma blank_answer_is_reported_witness :
  executeToolCreation Scenario.blank 7 "get the weather for a city" None
    (Demo.fresh Scenario.blank) =
    Ret (error_result "LLM response was empty.")
      (push_log ERROR "Error during tool creation execution: LLM response was empty."
         (after_completion Demo.model "get the weather for a city" None
            (Demo.fresh Scenario.blank))).
Proof.
  apply (blank_answer_is_reported Scenario.blank 7 "get the weather for a city" None
           (Demo.fresh Scenario.blank) Demo.model).
  - reflexivity.
  - reflexivity.
  - intros c [= <-]. reflexivity.
Defined.

(** X5. When the completion call itself fails, executeToolCreation does
    not raise: it returns the error result carrying the message of that
    failure, having made no other call and left the catalog alone. *)
Theorem completion_failure_is_reported (X : externals) (fuel : nat)
    (taskDescription : string) (suggestedName : option string) (s : state)
    (model msg : string) :
  llmClient s = Some model ->
  fault X (length (trace s)) = Some msg ->
  executeToolCreation X fuel taskDescription suggestedName s =
    Ret (error_result msg)
      (push_log ERROR ("Error during tool creation execution: " +:+ msg)
         (after_completion model taskDescription suggestedName s)).
Proof.
  intros Hc Hf.
  rewrite (executeToolCreation_with_client X fuel _ _ s model Hc).
  unfold try_catch.
  rewrite (creation_attempt_fault X _ model taskDescription suggestedName
             (announce taskDescription s) msg Hf).
  reflexivity.
Qed.

(** X5 on a client whose first call fails. *)
Lemma completion_failure_is_reported_witness :
  executeToolCreation Demo.flaky 7 "get the weather for a city" None
    (Demo.fresh Demo.flaky) =
    Ret (error_result "Failed to fetch")
      (push_log ERROR ("Error during tool creation execution: " +:+ "Failed to fetch")
         (after_completion Demo.model "get the weather for a city" None
            (Demo.fresh Demo.flaky))).
Proof.
  apply (completion_failure_is_reported Demo.flaky 7 "get the weather for a city" None
           (Demo.fresh Demo.flaky) Demo.model "Failed to fetch").
  - reflexivity.
  - reflexivity.
Defined.

(** X6. On a manager without an embedding function, an answer that passes
    validation is not stored and the call still does not raise: the
    configuration error of _getOrCreateCollection comes back as the error
    result, with the catalog and the missing handle as they were. *)
Theorem unconfigured_store_is_reported (X : externals) (fuel : nat)
    (taskDescription : string) (suggestedName : option string) (s : state)
    (model rawResponse : string) (def : obj) :
  llmClient s = Some model ->
  embedder X = None ->
  collection s = None ->
  fault X (length (trace s)) = None ->
  Text.trim <$> completion X model (make_prompt taskDescription suggestedName)
    = Some rawResponse ->
  rawResponse <> EmptyString ->
  synthesize X rawResponse = inr def ->
  exists s',
    executeToolCreation X fuel taskDescription suggestedName s
      = Ret (error_result no_embedder_error) s'
    /\ catalog s' = catalog s
    /\ collection s' = None.
Proof.
  intros Hc He Hcol Hf Hraw Hne Hsyn.
  rewrite (executeToolCreation_with_client X fuel _ _ s model Hc).
  unfold try_catch.
  rewrite (creation_attempt_accepts X _ model taskDescription suggestedName
             (announce taskDescription s) rawResponse def Hf Hraw Hne Hsyn).
  unfold bind at 1, addTool_body. unfold bind at 1.
  destruct (assign_defaults_returns X def false
              (push_call (completion_call model taskDescription suggestedName)
                 (announce taskDescription s))) as (d & s0 & -> & Hcol0 & Hcat0 & _).
  unfold bind at 1.
  rewrite (getOrCreateCollection_no_embedder X fuel s0) by (rewrite ?Hcol0; assumption).
  rewrite creation_failed_returns. eexists. split; [reflexivity|].
  simpl. rewrite Hcat0, Hcol0. auto.
Qed.

(** X6 on a manager without an API key. *)
Lemma unconfigured_store_is_reported_witness :
  exists s',
    executeToolCreation Demo.unconfigured 7 "get the weather for a city" None
      (Demo.fresh Demo.unconfigured)
      = Ret (error_result no_embedder_error) s'
    /\ catalog s' = catalog (Demo.fresh Demo.unconfigured)
    /\ collection s' = None.
Proof.
  apply (unconfigured_store_is_reported Demo.unconfigured 7 "get the weather for a city"
           None (Demo.fresh Demo.unconfigured) Demo.model
           (Demo.fenced Demo.weather_json) Demo.weather_def).
  - reflexivity.
  - reflexivity.
  - reflexivity.
  - reflexivity.
  - vm_compute. reflexivity.
  - discriminate.
  - vm_compute. reflexivity.
Defined.

(** ** What the class never does to the store *)
Section StoreAlone.

Variable X : externals.

Lemma untouched_refl (s : state) : untouched s s.
Proof.
  split; [reflexivity|]. split; [reflexivity|].
  exists []. rewrite app_nil_r. auto.
Qed.

Lemma untouched_trans (s1 s2 s3 : state) :
  untouched s1 s2 -> untouched s2 s3 -> untouched s1 s3.
Proof.
  intros (Hc1 & Hl1 & a1 & Ht1 & Hq1) (Hc2 & Hl2 & a2 & Ht2 & Hq2).
  split; [congruence|]. split; [congruence|].
  exists (a1 ++ a2)%list. rewrite Ht2, Ht1, <- app_assoc. split; [reflexivity|].
  rewrite forallb_app, Hq1, Hq2. reflexivity.
Qed.

Lemma untouched_push_log (lv : level) (msg : string) (s : state) :
  untouched s (push_log lv msg s).
Proof.
  split; [reflexivity|]. split; [reflexivity|].
  exists []. simpl. rewrite app_nil_r. auto.
Qed.

Lemma untouched_push_call (c : call) (s : state) :
  quiet c = true -> untouched s (push_call c s).
Proof.
  intros Hq. split; [reflexivity|]. split; [reflexivity|].
  exists [c]. simpl. rewrite Hq. auto.
Qed.

Lemma leaves_store_alone_from {A} (s s1 : state) (o : outcome A) :
  untouched s s1 -> leaves_store_alone s1 o -> leaves_store_alone s o.
Proof. destruct o; simpl; eauto using untouched_trans. Qed.

Lemma keeps_ret {A} (a : A) : keeps_store (ret a).
Proof. intros s. apply untouched_refl. Qed.

Lemma keeps_throw {A} (msg : string) : keeps_store (@throw A msg).
Proof. intros s. apply untouched_refl. Qed.

Lemma keeps_log (lv : level) (msg : string) : keeps_store (log lv msg).
Proof. intros s. apply untouched_push_log. Qed.

Lemma keeps_lift {A} (r : string + A) : keeps_store (lift r).
Proof. destruct r; [apply keeps_throw | apply keeps_ret]. Qed.

Lemma keeps_bind {A B} (m : M A) (k : A -> M B) :
  keeps_store m -> (forall a, keeps_store (k a)) -> keeps_store (bind m k).
Proof.
  intros Hm Hk s. unfold bind. specialize (Hm s).
  destruct (m s) as [a s1|msg s1|]; simpl in *; [|assumption|contradiction].
  eapply leaves_store_alone_from; [exact Hm | apply Hk].
Qed.

Lemma keeps_try_catch {A} (m : M A) (h : string -> M A) :
  keeps_store m -> (forall e, keeps_store (h e)) -> keeps_store (try_catch m h).
Proof.
  intros Hm Hh s. unfold try_catch. specialize (Hm s).
  destruct (m s) as [a s1|msg s1|]; simpl in *; [assumption| |contradiction].
  eapply leaves_store_alone_from; [exact Hm | apply Hh].
Qed.

Lemma keeps_external {A} (c : call) (m : M A) :
  quiet c = true -> keeps_store m -> keeps_store (external X c m).
Proof.
  intros Hq Hm s. unfold external.
  destruct (fault X (length (trace s))).
  - apply untouched_push_call, Hq.
  - eapply leaves_store_alone_from; [apply untouched_push_call, Hq | apply Hm].
Qed.

(** A step that never returns keeps the store whatever follows it. *)
Lemma keeps_stuck {A B} (m : M A) (k : A -> M B) :
  keeps_store m -> (forall s, returned (m s) = false) -> keeps_store (bind m k).
Proof.
  intros Hm Hno s. rewrite bind_stuck by apply Hno.
  specialize (Hm s). specialize (Hno s).
  destruct (m s); simpl in *; [discriminate | assumption | contradiction].
Qed.

Lemma untouched_connected (s : state) : untouched s (connected_state s).
Proof.
  split; [reflexivity|]. split; [reflexivity|].
  exists [CConnect COLLECTION_NAME]. auto.
Qed.

Lemma keeps_init (fuel : nat) : keeps_store (_getOrCreateCollection X fuel).
Proof.
  intros s. rewrite getOrCreateCollection_table.
  destruct (collection s) as [c|]; [apply untouched_refl|].
  destruct (embedder X) as [key|]; [|apply untouched_refl].
  destruct (fault X (length (trace s))) as [m|]; simpl.
  - eapply untouched_trans; [|apply untouched_push_log].
    apply untouched_push_call. reflexivity.
  - apply untouched_connected.
Qed.

End StoreAlone.

Section StoreAloneMethods.

Variable X : externals.

Lemma keeps_assign_defaults (def : obj) (isCore : bool) :
  keeps_store (assign_defaults X def isCore).
Proof.
  unfold assign_defaults. apply keeps_bind; [|intros d; apply keeps_ret].
  destruct (truthy (get_field def "id")); [apply keeps_ret|].
  apply keeps_bind; [|intros u; apply keeps_ret].
  intros s. apply untouched_push_call. reflexivity.
Qed.

Lemma keeps_addTool (fuel : nat) (def : obj) (isCore : bool) :
  keeps_store (addTool X fuel def isCore).
Proof.
  unfold addTool, addTool_body. apply keeps_bind; [apply keeps_assign_defaults|].
  intros d. apply keeps_stuck; [apply keeps_init | apply getOrCreateCollection_no_return].
Qed.

Lemma keeps_creation_attempt (fuel : nat) (model taskDescription : string)
    (suggestedName : option string) :
  keeps_store (creation_attempt X (_getOrCreateCollection X fuel) model
                 taskDescription suggestedName).
Proof.
  unfold creation_attempt. apply keeps_bind.
  - apply keeps_external; [reflexivity | apply keeps_ret].
  - intros content. destruct (Text.trim <$> content) as [[|a r]|];
      try apply keeps_throw.
    apply keeps_bind; [apply keeps_lift|]. intros def.
    apply keeps_bind; [apply (keeps_addTool fuel)|]. intros t.
    apply keeps_bind; [apply keeps_log | intros _; apply keeps_ret].
Qed.

Lemma keeps_executeToolCreation (fuel : nat) (taskDescription : string)
    (suggestedName : option string) :
  keeps_store (executeToolCreation X fuel taskDescription suggestedName).
Proof.
  unfold executeToolCreation, executeToolCreation_body.
  apply keeps_bind; [intros s; apply untouched_refl|].
  intros [model|]; [|apply keeps_throw].
  apply keeps_bind; [apply keeps_log|]. intros _.
  apply keeps_try_catch; [apply keeps_creation_attempt|].
  intros e. unfold creation_failed.
  apply keeps_bind; [apply keeps_log | intros _; apply keeps_ret].
Qed.

End StoreAloneMethods.

(** X7. Whatever method of the class is called, in whatever state, and
    whether it ends with a result or with an exception, the catalog is
    the one the call started with and no record of the collection was
    read, written or queried on the way: the only calls that left the
    process are connection attempts, completion calls and the generation
    of an id. *)
Theorem class_never_touches_store (X : externals) (fuel : nat) (s : state)
    (def : obj) (isCore : bool) (id context taskDescription : string)
    (maxResults : Z) (suggestedName : option string) :
  leaves_store_alone s (_getOrCreateCollection X fuel s)
  /\ leaves_store_alone s (ensureToolCreationTool X fuel s)
  /\ leaves_store_alone s (addTool X fuel def isCore s)
  /\ leaves_store_alone s (getTool X fuel id s)
  /\ leaves_store_alone s (getAvailableTools X fuel context maxResults s)
  /\ leaves_store_alone s (executeToolCreation X fuel taskDescription suggestedName s).
Proof.
  repeat split.
  - apply keeps_init.
  - apply keeps_stuck; [apply keeps_init | apply getOrCreateCollection_no_return].
  - apply keeps_addTool.
  - apply keeps_stuck; [apply keeps_init | apply getOrCreateCollection_no_return].
  - apply keeps_stuck; [apply keeps_init | apply getOrCreateCollection_no_return].
  - apply keeps_executeToolCreation.
Qed.

(** ** The first lines of [addTool] *)

Lemma assign_defaults_result (X : externals) (def : obj) (isCore : bool)
    (s : state) :
  exists d s',
    assign_defaults X def isCore s = Ret d s'
    /\ get_field d "id" =
         (if truthy (get_field def "id") then get_field def "id"
          else VStr (uuidv4 X (length (trace s))))
    /\ get_field d "type" =
         (if truthy (get_field def "type") then get_field def "type"
          else VStr (if isCore then "core" else "llm_generated"))
    /\ truthy (get_field d "type") = true
    /\ forall k, k <> "id" -> k <> "type" -> get_field d k = get_field def k.
Proof.
  unfold assign_defaults.
  destruct (truthy (get_field def "id")) eqn:Hid;
    unfold bind, new_uuid, ret; eexists _, _; (split; [reflexivity|]).
  - destruct (truthy (get_field def "type")) eqn:Hty.
    + repeat split; auto.
    + rewrite get_field_set_field_eq. split; [|split; [reflexivity|split]].
      * apply get_field_set_field_ne. discriminate.
      * destruct isCore; reflexivity.
      * intros k _ Hk. apply get_field_set_field_ne. congruence.
  - rewrite (get_field_set_field_ne def "id" "type") by discriminate.
    destruct (truthy (get_field def "type")) eqn:Hty.
    + rewrite get_field_set_field_eq.
      rewrite (get_field_set_field_ne def "id" "type") by discriminate.
      repeat split; auto.
      intros k Hk _. apply get_field_set_field_ne. congruence.
    + rewrite get_field_set_field_eq.
      rewrite (get_field_set_field_ne _ "type" "id") by discriminate.
      rewrite get_field_set_field_eq.
      split; [reflexivity|]. split; [reflexivity|]. split; [destruct isCore; reflexivity|].
      intros k Hk1 Hk2.
      rewrite get_field_set_field_ne by congruence.
      apply get_field_set_field_ne. congruence.
Qed.

(** X8. The first lines of addTool always succeed, keep an id and a type
    the definition brings, generate an id and set the type from isCore
    only where the definition has none, leave the definition with a
    truthy type, and change no other field. *)
Theorem assign_defaults_keeps_fields (X : externals) (def : obj) (isCore : bool)
    (s : state) :
  exists d s',
    assign_defaults X def isCore s = Ret d s'
    /\ get_field d "id" =
         (if truthy (get_field def "id") then get_field def "id"
          else VStr (uuidv4 X (length (trace s))))
    /\ get_field d "type" =
         (if truthy (get_field def "type") then get_field def "type"
          else VStr (if isCore then "core" else "llm_generated"))
    /\ truthy (get_field d "type") = true
    /\ forall k, k <> "id" -> k <> "type" -> get_field d k = get_field def k.
Proof. apply assign_defaults_result. Qed.

(** X9. Once addTool has filled in a definition, filling it in again
    changes nothing and generates no id, whatever isCore says the second
    time, as long as the generated id is not the empty string. *)
Theorem assign_defaults_idempotent (X : externals) (def d : obj) (isCore isCore' : bool)
    (s s' s'' : state) :
  uuidv4 X (length (trace s)) <> EmptyString ->
  assign_defaults X def isCore s = Ret d s' ->
  assign_defaults X d isCore' s'' = Ret d s''.
Proof.
  intros Hu H.
  destruct (assign_defaults_result X def isCore s)
    as (d0 & s0 & H0 & Hid & Hty & Htt & _).
  rewrite H in H0. injection H0 as <- <-.
  apply assign_defaults_present; [|exact Htt].
  rewrite Hid. destruct (truthy (get_field def "id")) eqn:E; [exact E|].
  simpl. destruct (uuidv4 X (length (trace s))); [contradiction | reflexivity].
Qed.

(** X9 on the example answer of the prompt. *)
Lemma assign_defaults_idempotent_witness :
  assign_defaults Demo.configured
    (with_generated_id_and_type Demo.configured Demo.weather_def false
       (Demo.fresh Demo.configured))
    true (Demo.fresh Demo.configured)
  = Ret (with_generated_id_and_type Demo.configured Demo.weather_def false
           (Demo.fresh Demo.configured))
      (Demo.fresh Demo.configured).
Proof.
  apply (assign_defaults_idempotent Demo.configured Demo.weather_def _ false true
           (Demo.fresh Demo.configured) (push_call CUuid (Demo.fresh Demo.configured))
           (Demo.fresh Demo.configured)).
  - discriminate.
  - reflexivity.
Defined.

(** ** Storing and fetching one record *)
Section Records.

Variable X : externals.

Lemma getTool_body_block (init : M (option string)) (id : string) :
  getTool_body X init id = (await _collection <- init ; lookup_tool X id).
Proof. reflexivity. Qed.

Lemma ensureToolCreationTool_body_block (init : M (option string))
    (add : obj -> bool -> M obj) :
  ensureToolCreationTool_body X init add =
    (await _collection <- init ; core_tool_check X add).
Proof. reflexivity. Qed.

Lemma addTool_body_block (init : M (option string)) (def : obj) (isCore : bool) :
  addTool_body X init def isCore =
    (await d <- assign_defaults X def isCore ;
     await _collection <- init ;
     store_tool X d).
Proof. reflexivity. Qed.

Lemma store_tool_outcome (d : obj) (s : state) :
  match store_tool X d s with
  | Ret d' s' =>
      d' = d
      /\ fault X (length (trace s)) = None
      /\ exists k, get_field d "id" = VStr k
           /\ catalog s' = <[k := Entry d (embedding_text X d)]> (catalog s)
           /\ trace s' = (trace s ++ [CUpsert (VStr k) (embedding_text X d)])%list
  | Throw msg s' =>
      catalog s' = catalog s
      /\ (fault X (length (trace s)) = Some msg
          \/ (fault X (length (trace s)) = None /\ forall k, get_field d "id" <> VStr k))
  | Diverge => False
  end.
Proof.
  unfold store_tool, try_catch, bind at 1, collection_upsert, external.
  destruct (fault X (length (trace s))) as [msg|] eqn:Hf.
  - simpl. auto.
  - destruct (get_field d "id") eqn:Hid; simpl;
      try (split; [reflexivity | right; split; [reflexivity | discriminate]]).
    repeat split. eexists. repeat split.
Qed.

Lemma lookup_tool_outcome (id : string) (s : state) :
  exists s',
    lookup_tool X id s =
      Ret (match fault X (length (trace s)) with
           | Some _ => None
           | None => metadata <$> catalog s !! id
           end) s'
    /\ catalog s' = catalog s.
Proof.
  unfold lookup_tool, try_catch, bind at 1, collection_get, external.
  destruct (fault X (length (trace s))) as [msg|].
  - eexists. split; reflexivity.
  - simpl. destruct (catalog s !! id) as [e|]; eexists; split; reflexivity.
Qed.

End Records.

(** X10. The try block of addTool is all or nothing and never hangs:
    either the definition is in the catalog under its id, with
    name: description as the embedded text, and the definition itself is
    returned; or an exception leaves and the catalog is untouched. The
    exception is the one the upsert raised, message unchanged, unless the
    id is not a string. *)
Theorem store_tool_all_or_nothing (X : externals) (d : obj) (s : state) :
  match store_tool X d s with
  | Ret d' s' =>
      d' = d
      /\ fault X (length (trace s)) = None
      /\ exists k, get_field d "id" = VStr k
           /\ catalog s' = <[k := Entry d (embedding_text X d)]> (catalog s)
           /\ trace s' = (trace s ++ [CUpsert (VStr k) (embedding_text X d)])%list
  | Throw msg s' =>
      catalog s' = catalog s
      /\ (fault X (length (trace s)) = Some msg
          \/ (fault X (length (trace s)) = None /\ forall k, get_field d "id" <> VStr k))
  | Diverge => False
  end.
Proof. apply store_tool_outcome. Qed.

(** X11. What the try block of addTool stored, the try block of getTool
    fetches: after a successful store, a fetch by the id of the definition
    that does not fail returns exactly that definition, and the records
    under all other ids are the ones from before the store. *)
Theorem store_then_lookup (X : externals) (d d' : obj) (s s' : state) :
  store_tool X d s = Ret d' s' ->
  fault X (length (trace s')) = None ->
  exists k,
    get_field d "id" = VStr k
    /\ lookup_tool X k s' = Ret (Some d) (push_call (CGet k) s')
    /\ forall k', k' <> k -> catalog s' !! k' = catalog s !! k'.
Proof.
  intros Hst Hf. pose proof (store_tool_outcome X d s) as H. rewrite Hst in H.
  destruct H as (_ & _ & k & Hid & Hcat & _). exists k. split; [exact Hid|]. split.
  - unfold lookup_tool, try_catch, bind at 1, collection_get, external.
    rewrite Hf. simpl. rewrite Hcat, lookup_insert_eq. reflexivity.
  - intros k' Hne. rewrite Hcat. apply lookup_insert_ne. congruence.
Qed.

(** X11 on the weather tool and a store that holds the core tool. *)
Lemma store_then_lookup_witness :
  exists k,
    get_field Scenario.weather_v1 "id" = VStr k
    /\ lookup_tool Demo.configured k Scenario.stored_once
       = Ret (Some Scenario.weather_v1) (push_call (CGet k) Scenario.stored_once)
    /\ forall k', k' <> k ->
         catalog Scenario.stored_once !! k'
         = catalog (Demo.connected Demo.store_with_core) !! k'.
Proof.
  apply (store_then_lookup Demo.configured Scenario.weather_v1 Scenario.weather_v1
           (Demo.connected Demo.store_with_core) Scenario.stored_once).
  - reflexivity.
  - reflexivity.
Defined.

(** X12. Storing is last-write-wins: after two successful stores of
    definitions with the same id, the catalog is what the second store
    alone would have left, record and embedded text included; nothing of
    the first definition remains. *)
Theorem store_twice_keeps_last (X : externals) (d1 d2 r1 r2 : obj) (s s1 s2 : state) :
  store_tool X d1 s = Ret r1 s1 ->
  store_tool X d2 s1 = Ret r2 s2 ->
  get_field d1 "id" = get_field d2 "id" ->
  exists k,
    get_field d2 "id" = VStr k
    /\ catalog s2 = <[k := Entry d2 (embedding_text X d2)]> (catalog s)
    /\ catalog s2 !! k = Some (Entry d2 (embedding_text X d2)).
Proof.
  intros H1 H2 Hid.
  pose proof (store_tool_outcome X d1 s) as O1. rewrite H1 in O1.
  pose proof (store_tool_outcome X d2 s1) as O2. rewrite H2 in O2.
  destruct O1 as (_ & _ & k1 & Hk1 & Hc1 & _).
  destruct O2 as (_ & _ & k2 & Hk2 & Hc2 & _).
  assert (k1 = k2) as -> by congruence.
  exists k2. split; [exact Hk2|]. split.
  - rewrite Hc2, Hc1. apply insert_insert_eq.
  - rewrite Hc2. apply lookup_insert_eq.
Qed.

(** X12 on the weather tool and its update. *)
Lemma store_twice_keeps_last_witness :
  exists k,
    get_field Scenario.weather_v2 "id" = VStr k
    /\ catalog Scenario.stored_twice
       = <[k := Entry Scenario.weather_v2
                  (embedding_text Demo.configured Scenario.weather_v2)]>
           (catalog (Demo.connected Demo.store_with_core))
    /\ catalog Scenario.stored_twice !! k
       = Some (Entry Scenario.weather_v2
                 (embedding_text Demo.configured Scenario.weather_v2)).
Proof.
  apply (store_twice_keeps_last Demo.configured Scenario.weather_v1 Scenario.weather_v2
           Scenario.weather_v1 Scenario.weather_v2
           (Demo.connected Demo.store_with_core) Scenario.stored_once
           Scenario.stored_twice).
  - reflexivity.
  - reflexivity.
  - reflexivity.
Defined.

(** X13. The try block of getTool never raises and never changes the
    catalog: it returns the stored definition when the fetch succeeds and
    the id is there, and null both when the id is absent and when the
    fetch fails, so the caller cannot tell the two apart. *)
Theorem lookup_tool_never_raises (X : externals) (id : string) (s : state) :
  exists s',
    lookup_tool X id s =
      Ret (match fault X (length (trace s)) with
           | Some _ => None
           | None => metadata <$> catalog s !! id
           end) s'
    /\ catalog s' = catalog s.
Proof. apply lookup_tool_outcome. Qed.

(** ** The relevance step *)

Lemma relevant_tools_outcome (X : externals) (context : string) (maxResults : Z)
    (s : state) :
  exists relevant s',
    relevant_tools X context maxResults s = Ret relevant s'
    /\ catalog s' = catalog s
    /\ Forall (fun tool => not_core tool = true) relevant
    /\ (trace s' = trace s
        \/ trace s' = (trace s ++ [CQuery context (Z.max 1 maxResults)])%list)
    /\ (context = EmptyString \/ embedder X = None ->
        relevant = [] /\ trace s' = trace s)
    /\ (fault X (length (trace s)) <> None -> relevant = []).
Proof.
  unfold relevant_tools.
  destruct (truthy (VStr context) && bool_decide (is_Some (embedder X))) eqn:Hgo.
  - apply andb_prop in Hgo as [Hctx Hemb]. apply bool_decide_eq_true in Hemb.
    assert (Hskip : ~ (context = EmptyString \/ embedder X = None)).
    { intros [-> | He]; [discriminate|]. rewrite He in Hemb. destruct Hemb; discriminate. }
    unfold try_catch, bind at 1, collection_query, external.
    destruct (fault X (length (trace s))) as [msg|].
    + eexists _, _. split; [reflexivity|]. simpl.
      split; [reflexivity|]. split; [constructor|]. split; [auto|].
      split; [intros Hs; contradiction | reflexivity].
    + eexists _, _. split; [reflexivity|]. simpl. split; [reflexivity|]. split.
      * apply Forall_forall. intros tool Hin.
        apply list_elem_of_In, filter_In in Hin. tauto.
      * split; [auto|]. split; [intros Hs; contradiction | intros Hn; contradiction].
  - destruct (bool_decide (is_Some (embedder X)));
      unfold bind, log, ret; eexists _, _; (split; [reflexivity|]); simpl;
      repeat split; auto.
Qed.

(** X14. The block that fills relevantTools never raises and never
    changes the catalog. It makes at most one call, a query for
    max(1, maxResults) results; with an empty context or without an
    embedding function it makes none and yields no tools; a failing query
    yields no tools either; and no tool it yields has the id of the core
    tool. *)
Theorem relevant_tools_never_raises (X : externals) (context : string)
    (maxResults : Z) (s : state) :
  exists relevant s',
    relevant_tools X context maxResults s = Ret relevant s'
    /\ catalog s' = catalog s
    /\ Forall (fun tool => not_core tool = true) relevant
    /\ (trace s' = trace s
        \/ trace s' = (trace s ++ [CQuery context (Z.max 1 maxResults)])%list)
    /\ (context = EmptyString \/ embedder X = None ->
        relevant = [] /\ trace s' = trace s)
    /\ (fault X (length (trace s)) <> None -> relevant = []).
Proof. apply relevant_tools_outcome. Qed.

(** ** The merge, once more *)
Section MergeMore.

Lemma unique_tools_sublist (seen : list value) (tools : list obj) :
  sublist (unique_tools seen tools) tools.
Proof.
  revert seen. induction tools as [|t rest IH]; intros seen; simpl.
  - constructor.
  - destruct (existsb (same_value_zero (get_field t "id")) seen).
    + apply sublist_cons, IH.
    + apply sublist_skip, IH.
Qed.

(** Every tool of the input is kept, or shares its id with a tool seen
    before or kept. *)
Lemma unique_tools_covers (seen : list value) (tools : list obj) (tool : obj) :
  In tool tools ->
  In tool (unique_tools seen tools)
  \/ existsb (same_value_zero (get_field tool "id")) seen = true
  \/ exists kept, In kept (unique_tools seen tools)
       /\ same_value_zero (get_field tool "id") (get_field kept "id") = true.
Proof.
  revert seen. induction tools as [|t rest IH]; intros seen; simpl; [tauto|].
  intros [<- | Hin].
  - destruct (existsb (same_value_zero (get_field t "id")) seen) eqn:E; simpl; auto.
  - destruct (existsb (same_value_zero (get_field t "id")) seen) eqn:E.
    + apply IH, Hin.
    + destruct (IH (get_field t "id" :: seen) Hin) as [H | [H | (kept & H1 & H2)]].
      * left. simpl. auto.
      * simpl in H. apply orb_prop in H as [H | H].
        -- right. right. exists t. simpl. auto.
        -- auto.
      * right. right. exists kept. simpl. auto.
Qed.

(** A list whose ids are already different, and unseen, is left as it is. *)
Lemma unique_tools_distinct_id (seen : list value) (tools : list obj) :
  distinct_ids tools ->
  (forall tool, In tool tools ->
     existsb (same_value_zero (get_field tool "id")) seen = false) ->
  unique_tools seen tools = tools.
Proof.
  revert seen. induction tools as [|t rest IH]; intros seen; simpl; [reflexivity|].
  intros [Hhd Htl] Hseen. rewrite (Hseen t) by auto. f_equal.
  apply IH; [exact Htl|]. intros tool Hin. simpl.
  rewrite same_value_zero_sym, (Hhd tool Hin). simpl. apply Hseen. auto.
Qed.

Lemma same_value_zero_trans (a b c : value) :
  same_value_zero a b = true -> same_value_zero b c = true ->
  same_value_zero a c = true.
Proof.
  destruct a, b; simpl; try discriminate; destruct c; simpl; try discriminate; auto.
  - destruct b, b0, b1; auto.
  - intros H1 H2. apply Qeq_bool_iff in H1, H2. apply Qeq_bool_iff.
    eapply Qeq_trans; eassumption.
  - intros H1 H2. apply String.eqb_eq in H1, H2. apply String.eqb_eq. congruence.
Qed.

Lemma unique_tools_app (seen : list value) (l1 l2 : list obj) :
  unique_tools seen (l1 ++ l2)%list =
    (unique_tools seen l1 ++ unique_tools (seen_after seen l1) l2)%list.
Proof.
  revert seen. induction l1 as [|t rest IH]; intros seen; simpl; [reflexivity|].
  destruct (existsb (same_value_zero (get_field t "id")) seen).
  - apply IH.
  - simpl. f_equal. apply IH.
Qed.

(** An id is in the set after [tools] exactly when it was there before or
    some tool of [tools] has it. *)
Lemma seen_after_spec (i : value) (seen : list value) (tools : list obj) :
  existsb (same_value_zero i) (seen_after seen tools)
  = existsb (same_value_zero i) seen || id_among i tools.
Proof.
  revert seen. induction tools as [|t rest IH]; intros seen; simpl.
  - rewrite orb_false_r. reflexivity.
  - destruct (existsb (same_value_zero (get_field t "id")) seen) eqn:E.
    + rewrite IH.
      destruct (same_value_zero i (get_field t "id")) eqn:Hi; [|reflexivity].
      simpl. rewrite orb_true_r.
      apply existsb_exists in E as (x & Hx & Htx).
      assert (Hseen : existsb (same_value_zero i) seen = true).
      { apply existsb_exists. exists x. split; [exact Hx|].
        eapply same_value_zero_trans; eassumption. }
      rewrite Hseen. reflexivity.
    + rewrite IH. simpl.
      destruct (same_value_zero i (get_field t "id")), (existsb (same_value_zero i) seen);
        reflexivity.
Qed.

Lemma unique_tools_snoc (pre : list obj) (tool : obj) :
  unique_tools [] (pre ++ [tool])%list =
    (unique_tools [] pre
     ++ (if id_among (get_field tool "id") pre then [] else [tool]))%list.
Proof.
  rewrite unique_tools_app. f_equal. simpl.
  rewrite seen_after_spec. simpl.
  destruct (id_among (get_field tool "id") pre); reflexivity.
Qed.

Lemma slice0_negative {A} (l : list A) (n : Z) :
  n < 0 ->
  slice0 l (n + 1) =
    if n =? -1 then [] else take (length l - Z.to_nat (- (n + 1))) l.
Proof.
  intros Hn. unfold slice0. destruct (Z.eqb_spec n (-1)) as [->|Hne].
  - simpl. rewrite Z.min_l by lia. reflexivity.
  - destruct (Z.ltb_spec (n + 1) 0) as [_|Hge]; [|lia].
    f_equal. lia.
Qed.

End MergeMore.

(** X15. The list built on the regular path of getAvailableTools, for a
    maxResults that is not negative: the fetched core tool comes first;
    at most maxResults tools follow; they are relevant tools in the order
    the query gave them; none of them has the id of the core tool; and no
    two entries of the list have the same id. *)
Theorem regular_path_list (core : obj) (inner : list obj) (maxResults : Z) :
  0 <= maxResults ->
  exists others,
    slice0 (unique_tools [] (core :: List.filter not_core inner)) (maxResults + 1)
      = core :: others
    /\ (length others <= Z.to_nat maxResults)%nat
    /\ sublist others inner
    /\ Forall (fun tool => not_core tool = true) others
    /\ distinct_ids (core :: others).
Proof.
  intros Hn. simpl unique_tools. rewrite slice0_cons by exact Hn.
  eexists. split; [reflexivity|].
  split; [rewrite length_take; lia|].
  split.
  { etrans; [apply sublist_take|]. etrans; [apply unique_tools_sublist|].
    clear. induction inner as [|t rest IH]; simpl; [constructor|].
    destruct (not_core t); [apply sublist_skip | apply sublist_cons]; exact IH. }
  split.
  { apply Forall_forall. intros tool Hin.
    apply list_elem_of_In, In_take in Hin.
    apply unique_tools_unseen in Hin as [Hin _].
    apply filter_In in Hin. tauto. }
  pose proof (unique_tools_distinct [] (core :: List.filter not_core inner)) as Hd.
  simpl in Hd. destruct Hd as [Hhd Htl]. split.
  - intros other Hin. eapply Hhd, In_take, Hin.
  - apply distinct_ids_take, Htl.
Qed.

(** X15 on the core tool, the weather tool twice and five results. *)
Lemma regular_path_list_witness :
  exists others,
    slice0 (unique_tools []
              (TOOL_CREATION_TOOL_DEF
               :: List.filter not_core
                    [Scenario.weather_v1; TOOL_CREATION_TOOL_DEF; Scenario.weather_v2]))
      (5 + 1)
      = TOOL_CREATION_TOOL_DEF :: others
    /\ (length others <= Z.to_nat 5)%nat
    /\ sublist others [Scenario.weather_v1; TOOL_CREATION_TOOL_DEF; Scenario.weather_v2]
    /\ Forall (fun tool => not_core tool = true) others
    /\ distinct_ids (TOOL_CREATION_TOOL_DEF :: others).
Proof.
  apply (regular_path_list TOOL_CREATION_TOOL_DEF
           [Scenario.weather_v1; TOOL_CREATION_TOOL_DEF; Scenario.weather_v2] 5).
  lia.
Defined.

(** X16. The filter over uniqueToolIds keeps the first tool of every id.
    A tool at the end of a list is kept exactly when no tool before it in
    the list has its id, and what the filter kept of the tools before it
    stays as it was. It follows that the result is a sublist of the input
    with pairwise different ids, that every tool dropped has the id of a
    tool kept, and that a list whose ids are already different comes back
    unchanged. *)
Theorem unique_tools_keeps_first (tools : list obj) :
  (forall pre tool,
     unique_tools [] (pre ++ [tool])%list =
       (unique_tools [] pre
        ++ (if id_among (get_field tool "id") pre then [] else [tool]))%list)
  /\ sublist (unique_tools [] tools) tools
  /\ distinct_ids (unique_tools [] tools)
  /\ (forall tool, In tool tools ->
        In tool (unique_tools [] tools)
        \/ exists kept, In kept (unique_tools [] tools)
             /\ same_value_zero (get_field tool "id") (get_field kept "id") = true)
  /\ (distinct_ids tools -> unique_tools [] tools = tools).
Proof.
  split; [intros pre tool; apply unique_tools_snoc|].
  split; [apply unique_tools_sublist|].
  split; [apply unique_tools_distinct|].
  split.
  - intros tool Hin.
    destruct (unique_tools_covers [] tools tool Hin) as [H | [H | H]]; auto.
    discriminate.
  - intros Hd. apply unique_tools_distinct_id; [exact Hd | reflexivity].
Qed.

(** X17. A negative maxResults cuts the list from the wrong end: with -1
    the slice of the regular path is empty, the core tool included, and
    with a smaller value it drops that many entries, less one, from the
    end of the deduplicated list. *)
Theorem negative_maxResults_cuts_list (core : obj) (relevant : list obj)
    (maxResults : Z) :
  maxResults < 0 ->
  slice0 (unique_tools [] (core :: relevant)) (maxResults + 1) =
    if maxResults =? -1 then []
    else take (length (unique_tools [] (core :: relevant))
               - Z.to_nat (- (maxResults + 1)))
           (unique_tools [] (core :: relevant)).
Proof. apply slice0_negative. Qed.

(** X17 with maxResults -2. *)
Lemma negative_maxResults_cuts_list_witness :
  slice0 (unique_tools []
            (TOOL_CREATION_TOOL_DEF :: [Scenario.weather_v1; Demo.impostor_def]))
    (-2 + 1) =
    if -2 =? -1 then []
    else take (length (unique_tools []
                         (TOOL_CREATION_TOOL_DEF
                          :: [Scenario.weather_v1; Demo.impostor_def]))
               - Z.to_nat (- (-2 + 1)))
           (unique_tools []
              (TOOL_CREATION_TOOL_DEF :: [Scenario.weather_v1; Demo.impostor_def])).
Proof.
  apply (negative_maxResults_cuts_list TOOL_CREATION_TOOL_DEF
           [Scenario.weather_v1; Demo.impostor_def] (-2)).
  lia.
Defined.

(** ** The existence check of the core tool *)
Section CoreToolCheck.

Variable X : externals.
Variable add : obj -> bool -> M obj.

Lemma retry_throws (s s' : state) (msg : string) :
  not_found_retry add s = Throw msg s' ->
  exists s1, add TOOL_CREATION_TOOL_DEF true s1 = Throw msg s'.
Proof.
  unfold not_found_retry, bind at 1, log. unfold bind at 1.
  destruct (add TOOL_CREATION_TOOL_DEF true _) as [d s2|m s2|] eqn:E; try discriminate.
  intros [= <- <-]. eauto.
Qed.

Lemma core_tool_check_throws (s s' : state) (msg : string) :
  core_tool_check X add s = Throw msg s' ->
  exists e s1,
    Text.includes e "not found" = true
    /\ add TOOL_CREATION_TOOL_DEF true s1 = Throw msg s'.
Proof.
  unfold core_tool_check, try_catch, bind at 1, collection_get, external.
  destruct (fault X (length (trace s))) as [e|].
  - destruct (Text.includes e "not found") eqn:He.
    + intros H. destruct (retry_throws _ _ _ H) as (s1 & H1). eauto.
    + discriminate.
  - destruct (catalog (push_call (CGet TOOL_CREATION_TOOL_ID) s) !! TOOL_CREATION_TOOL_ID).
    + discriminate.
    + simpl. unfold bind at 1, log. unfold bind at 1.
      destruct (add TOOL_CREATION_TOOL_DEF true _) as [d s2|e s2|]; try discriminate.
      destruct (Text.includes e "not found") eqn:He.
      * intros H. destruct (retry_throws _ _ _ H) as (s1 & H1). eauto.
      * discriminate.
Qed.

Lemma core_tool_check_retries (s s2 : state) (e : string) :
  fault X (length (trace s)) = None ->
  catalog s !! TOOL_CREATION_TOOL_ID = None ->
  add TOOL_CREATION_TOOL_DEF true
    (push_log LOG "Core tool 'create_new_tool' not found. Adding it."
       (push_call (CGet TOOL_CREATION_TOOL_ID) s)) = Throw e s2 ->
  Text.includes e "not found" = true ->
  core_tool_check X add s =
    (run add TOOL_CREATION_TOOL_DEF true ; ret tt)
      (push_log LOG "Core tool 'create_new_tool' not found (initial add). Adding it." s2).
Proof.
  intros Hf Habs Hadd He.
  unfold core_tool_check, try_catch, bind at 1, collection_get, external.
  rewrite Hf. simpl. rewrite Habs. simpl.
  unfold bind at 1, log. unfold bind at 1. rewrite Hadd, He. reflexivity.
Qed.

End CoreToolCheck.

Section CoreToolCheckOutcomes.

Variable X : externals.
Variable add : obj -> bool -> M obj.

Lemma retry_outcome (s : state) :
  not_found_retry add s =
    match add TOOL_CREATION_TOOL_DEF true (retrying s) with
    | Ret _ s3 => Ret tt s3
    | Throw m s3 => Throw m s3
    | Diverge => Diverge
    end.
Proof.
  unfold not_found_retry, bind, log, retrying.
  destruct (add TOOL_CREATION_TOOL_DEF true _); reflexivity.
Qed.

(** The block, case by case. *)
Lemma core_tool_check_outcome (s : state) :
  core_tool_check X add s =
    match fault X (length (trace s)) with
    | Some e =>
        if Text.includes e "not found" then not_found_retry add (checked s)
        else Ret tt (check_error_logged e (checked s))
    | None =>
        match catalog s !! TOOL_CREATION_TOOL_ID with
        | Some _ => Ret tt (checked s)
        | None =>
            match add TOOL_CREATION_TOOL_DEF true (adding s) with
            | Ret _ s2 => Ret tt s2
            | Throw e s2 =>
                if Text.includes e "not found" then not_found_retry add s2
                else Ret tt (check_error_logged e s2)
            | Diverge => Diverge
            end
        end
    end.
Proof.
  unfold core_tool_check, try_catch, bind at 1, collection_get, external.
  destruct (fault X (length (trace s))) as [e|].
  - destruct (Text.includes e "not found"); reflexivity.
  - change (catalog (push_call (CGet TOOL_CREATION_TOOL_ID) s)) with (catalog s).
    destruct (catalog s !! TOOL_CREATION_TOOL_ID); [reflexivity|].
    simpl. unfold bind at 1, log. unfold bind at 1. fold (checked s). fold (adding s).
    destruct (add TOOL_CREATION_TOOL_DEF true (adding s)) as [d s2|e s2|]; try reflexivity.
    destruct (Text.includes e "not found"); reflexivity.
Qed.

Lemma retry_throws_iff (s s' : state) (msg : string) :
  not_found_retry add s = Throw msg s' <->
  add TOOL_CREATION_TOOL_DEF true (retrying s) = Throw msg s'.
Proof.
  rewrite retry_outcome.
  destruct (add TOOL_CREATION_TOOL_DEF true (retrying s)); split; congruence.
Qed.

Lemma core_tool_check_throws_iff (s s' : state) (msg : string) :
  core_tool_check X add s = Throw msg s' <->
  (exists e, fault X (length (trace s)) = Some e
     /\ Text.includes e "not found" = true
     /\ add TOOL_CREATION_TOOL_DEF true (retrying (checked s)) = Throw msg s')
  \/ (fault X (length (trace s)) = None
      /\ catalog s !! TOOL_CREATION_TOOL_ID = None
      /\ exists e s2,
           add TOOL_CREATION_TOOL_DEF true (adding s) = Throw e s2
           /\ Text.includes e "not found" = true
           /\ add TOOL_CREATION_TOOL_DEF true (retrying s2) = Throw msg s').
Proof.
  rewrite core_tool_check_outcome.
  destruct (fault X (length (trace s))) as [e|] eqn:Hf.
  - destruct (Text.includes e "not found") eqn:He.
    + rewrite retry_throws_iff. split.
      * intros H. left. eauto.
      * intros [(e' & [= <-] & _ & H) | ([=] & _)]. exact H.
    + split; [discriminate|].
      intros [(e' & [= <-] & He' & _) | ([=] & _)]. congruence.
  - destruct (catalog s !! TOOL_CREATION_TOOL_ID) as [en|] eqn:Hc.
    + split; [discriminate|].
      intros [(e' & [=] & _) | (_ & [=] & _)].
    + destruct (add TOOL_CREATION_TOOL_DEF true (adding s)) as [d s2|e s2|] eqn:Ha.
      * split; [discriminate|].
        intros [(e' & [=] & _) | (_ & _ & e' & s3 & [=] & _)].
      * destruct (Text.includes e "not found") eqn:He.
        -- rewrite retry_throws_iff. split.
           ++ intros H. right. eauto 10.
           ++ intros [(e' & [=] & _) | (_ & _ & e' & s3 & [= <- <-] & _ & H)]. exact H.
        -- split; [discriminate|].
           intros [(e' & [=] & _) | (_ & _ & e' & s3 & [= <- <-] & He' & _)]. congruence.
      * split; [discriminate|].
        intros [(e' & [=] & _) | (_ & _ & e' & s3 & [=] & _)].
Qed.

End CoreToolCheckOutcomes.

(** X18. The try/catch of ensureToolCreationTool lets an exception out in
    one way only: from the addTool call of its catch branch. That call is
    made in two cases and no other: the existence check failed with a
    message that contains not found; or the check succeeded, the core
    tool was absent, and the first addTool failed with such a message.
    The block throws exactly when, in one of these cases, that second
    addTool throws, and it throws what that call threw. A failure of the
    check or of the first addTool whose message does not contain not
    found is swallowed: it is logged and the block returns. *)
Theorem core_tool_check_raises_only_from_retry (X : externals)
    (add : obj -> bool -> M obj) (s : state) :
  (forall msg s',
     core_tool_check X add s = Throw msg s' <->
     (exists e, fault X (length (trace s)) = Some e
        /\ Text.includes e "not found" = true
        /\ add TOOL_CREATION_TOOL_DEF true (retrying (checked s)) = Throw msg s')
     \/ (fault X (length (trace s)) = None
         /\ catalog s !! TOOL_CREATION_TOOL_ID = None
         /\ exists e s2,
              add TOOL_CREATION_TOOL_DEF true (adding s) = Throw e s2
              /\ Text.includes e "not found" = true
              /\ add TOOL_CREATION_TOOL_DEF true (retrying s2) = Throw msg s'))
  /\ (forall e,
        fault X (length (trace s)) = Some e ->
        Text.includes e "not found" = false ->
        core_tool_check X add s = Ret tt (check_error_logged e (checked s)))
  /\ (forall e s2,
        fault X (length (trace s)) = None ->
        catalog s !! TOOL_CREATION_TOOL_ID = None ->
        add TOOL_CREATION_TOOL_DEF true (adding s) = Throw e s2 ->
        Text.includes e "not found" = false ->
        core_tool_check X add s = Ret tt (check_error_logged e s2)).
Proof.
  split; [intros msg s'; apply core_tool_check_throws_iff|]. split.
  - intros e Hf He. rewrite core_tool_check_outcome, Hf, He. reflexivity.
  - intros e s2 Hf Hc Ha He. rewrite core_tool_check_outcome, Hf, Hc, Ha, He. reflexivity.
Qed.

(** X18 on two stores. One is lost after the existence check: both calls
    of addTool fail, saying not found, and the second failure leaves the
    block. On the other the existence check fails to fetch: the error is
    logged and the block returns. *)
Lemma core_tool_check_raises_only_from_retry_witness :
  (exists s',
     core_tool_check Scenario.lost (Scenario.add_directly Scenario.lost) (Demo.connected ∅)
     = Throw "Collection agent_tools not found" s')
  /\ core_tool_check Demo.flaky (Scenario.add_directly Demo.flaky) (Demo.connected ∅)
     = Ret tt (check_error_logged "Failed to fetch" (checked (Demo.connected ∅))).
Proof.
  split.
  - eexists.
    apply (proj1 (core_tool_check_raises_only_from_retry Scenario.lost
                    (Scenario.add_directly Scenario.lost) (Demo.connected ∅))).
    right. split; [reflexivity|]. split; [reflexivity|].
    eexists _, _. split; [vm_compute; reflexivity|].
    split; [vm_compute; reflexivity|]. vm_compute. reflexivity.
  - apply (proj1 (proj2 (core_tool_check_raises_only_from_retry Demo.flaky
                           (Scenario.add_directly Demo.flaky) (Demo.connected ∅)))).
    + reflexivity.
    + reflexivity.
Defined.

(** X19. When the core tool is absent and the first addTool fails with a
    message that contains not found, the catch branch calls addTool a
    second time, and the outcome of that second call is the outcome of
    the block. *)
Theorem core_tool_check_adds_twice (X : externals) (add : obj -> bool -> M obj)
    (s s2 : state) (e : string) :
  fault X (length (trace s)) = None ->
  catalog s !! TOOL_CREATION_TOOL_ID = None ->
  add TOOL_CREATION_TOOL_DEF true
    (push_log LOG "Core tool 'create_new_tool' not found. Adding it."
       (push_call (CGet TOOL_CREATION_TOOL_ID) s)) = Throw e s2 ->
  Text.includes e "not found" = true ->
  core_tool_check X add s =
    (run add TOOL_CREATION_TOOL_DEF true ; ret tt)
      (push_log LOG "Core tool 'create_new_tool' not found (initial add). Adding it." s2).
Proof. apply core_tool_check_retries. Qed.

(** X19 on a store whose second call fails: the second addTool gets the
    core tool in. *)
Lemma core_tool_check_adds_twice_witness :
  core_tool_check Scenario.forgetful (Scenario.add_directly Scenario.forgetful)
    (Demo.connected ∅) =
    (run Scenario.add_directly Scenario.forgetful TOOL_CREATION_TOOL_DEF true ; ret tt)
      (push_log LOG "Core tool 'create_new_tool' not found (initial add). Adding it."
         (Scenario.final_state
            (Scenario.add_directly Scenario.forgetful TOOL_CREATION_TOOL_DEF true
               (push_log LOG "Core tool 'create_new_tool' not found. Adding it."
                  (push_call (CGet TOOL_CREATION_TOOL_ID) (Demo.connected ∅))))
            (Demo.connected ∅))).
Proof.
  apply (core_tool_check_adds_twice Scenario.forgetful
           (Scenario.add_directly Scenario.forgetful) (Demo.connected ∅) _
           "Collection agent_tools not found").
  - reflexivity.
  - reflexivity.
  - vm_compute. reflexivity.
  - reflexivity.
Defined.

(** ** The demo: [runDemo] and [Agent.process] *)
Section Demo.

Variable X : externals.

Lemma runDemo_outcome (fuel : nat) (session : M unit) (s : state) :
  runDemo X fuel session s =
    match _getOrCreateCollection X fuel s with
    | Throw e s' =>
        Ret tt (push_log ERROR ("Failed to initialize Tool Manager. Exiting. " +:+ e) s')
    | _ => Diverge
    end.
Proof.
  unfold runDemo, bind at 1, try_catch.
  rewrite (bind_stuck (_getOrCreateCollection X fuel)) by apply getOrCreateCollection_no_return.
  destruct (_getOrCreateCollection X fuel s); reflexivity.
Qed.

(** A requested tool call never gets past the comparison with the name
    of the core tool. *)
Lemma agent_turn_tool_call (llm : agent_llm) (toolManager : tool_manager)
    (userInput : string) (toolsForLLM : list obj) (s : state)
    (reply : message) (others : list message) :
  llm userInput (match toolsForLLM with [] => None | _ => Some toolsForLLM end)
    = inr (reply :: others) ->
  tool_calls reply <> [] ->
  exists e s', agent_turn X llm toolManager userInput toolsForLLM s = Throw e s'
    /\ catalog s' = catalog s /\ trace s' = trace s.
Proof.
  intros Hllm Hcalls. unfold agent_turn. unfold bind at 1. rewrite Hllm. simpl.
  destruct (tool_calls reply) as [|toolCall rest]; [contradiction|].
  unfold bind at 1. destruct (JSON_parse X (fn_arguments toolCall)) as [e|toolArgs]; simpl.
  - eauto.
  - eexists _, _. split; [reflexivity|]. auto.
Qed.

Lemma agent_turn_ignores_creation (llm : agent_llm)
    (getTools : string -> Z -> M (list obj))
    (create1 create2 : value -> value -> M obj)
    (userInput : string) (toolsForLLM : list obj) (s : state) :
  agent_turn X llm (ToolMgr getTools create1) userInput toolsForLLM s
  = agent_turn X llm (ToolMgr getTools create2) userInput toolsForLLM s.
Proof.
  unfold agent_turn, bind.
  destruct (lift (llm userInput _) s) as [choices s1| |]; reflexivity.
Qed.

End Demo.

(** X20. runDemo never starts the interactive session: whatever would
    follow the initialisation, the demo ends with the initialisation.
    When _getOrCreateCollection throws, as it does in every state, the
    demo logs that the tool manager failed to initialise and returns;
    nothing else lets it go on. *)
Theorem runDemo_never_starts_session (X : externals) (fuel : nat)
    (session : M unit) (s : state) :
  runDemo X fuel session s =
    match _getOrCreateCollection X fuel s with
    | Throw e s' =>
        Ret tt (push_log ERROR ("Failed to initialize Tool Manager. Exiting. " +:+ e) s')
    | _ => Diverge
    end.
Proof. apply runDemo_outcome. Qed.

(** X21. Agent.process never calls executeToolCreation, whatever tool
    manager and completion client it is given: its outcome is the same
    for every implementation of that method. *)
Theorem process_never_creates_tools (X : externals) (llm : agent_llm)
    (getTools : string -> Z -> M (list obj))
    (create1 create2 : value -> value -> M obj) (userInput : string) (s : state) :
  process X llm (ToolMgr getTools create1) userInput s
  = process X llm (ToolMgr getTools create2) userInput s.
Proof.
  unfold process, bind, log, try_catch. simpl tm_getAvailableTools.
  destruct (getTools userInput 5 _) as [tools s1| |]; reflexivity.
Qed.

(** X22. When the model asks for a tool call, any tool call, the reply of
    Agent.process is the generic apology: the arguments either fail to
    parse, or the comparison with TOOL_CREATION_TOOL_DEF.name raises,
    because index.js neither declares nor imports that name; the catch
    block turns both into the apology, and nothing was stored. *)
Theorem tool_call_ends_in_apology (X : externals) (llm : agent_llm)
    (toolManager : tool_manager) (userInput : string) (s s1 : state)
    (tools : list obj) (reply : message) (others : list message) :
  tm_getAvailableTools toolManager userInput 5 (processing userInput s) = Ret tools s1 ->
  llm userInput (match tool_for_llm <$> tools with [] => None | l => Some l end)
    = inr (reply :: others) ->
  tool_calls reply <> [] ->
  exists s',
    process X llm toolManager userInput s = Ret apology s'
    /\ catalog s' = catalog s1 /\ trace s' = trace s1.
Proof.
  intros Htools Hllm Hcalls.
  unfold process. unfold bind at 1. unfold log at 1.
  fold (processing userInput s).
  rewrite (bind_ret _ _ _ _ _ Htools).
  unfold bind at 1. unfold log at 1. unfold try_catch.
  match goal with
  | |- context [agent_turn X llm toolManager userInput ?l ?st] =>
      destruct (agent_turn_tool_call X llm toolManager userInput l st reply others)
        as (e & s' & -> & Hcat & Htr)
  end.
  - destruct (tool_for_llm <$> tools); exact Hllm.
  - exact Hcalls.
  - eexists. split; [reflexivity|]. simpl. rewrite Hcat, Htr. auto.
Qed.

(** X22 on a manager that offers the core tool and a model that asks for
    it. *)
Lemma tool_call_ends_in_apology_witness :
  exists s',
    process Demo.configured Stage.eager_llm Stage.obliging_manager
      "make a tool that tells the weather" (Demo.connected Demo.store_with_core)
    = Ret apology s'
    /\ catalog s'
       = catalog (processing "make a tool that tells the weather"
                    (Demo.connected Demo.store_with_core))
    /\ trace s'
       = trace (processing "make a tool that tells the weather"
                  (Demo.connected Demo.store_with_core)).
Proof.
  apply (tool_call_ends_in_apology Demo.configured Stage.eager_llm Stage.obliging_manager
           "make a tool that tells the weather" (Demo.connected Demo.store_with_core)
           (processing "make a tool that tells the weather"
              (Demo.connected Demo.store_with_core))
           [TOOL_CREATION_TOOL_DEF]
           (Message VNull [ToolCall (VStr "create_new_tool") Demo.weather_json]) []).
  - reflexivity.
  - reflexivity.
  - discriminate.
Defined.

(** X23. With the ToolManager of index.js the agent never answers:
    process awaits getAvailableTools before its try block, so it ends the
    way _getOrCreateCollection does, with the error of the initialisation
    raised to the caller of process, and in no case with a reply. *)
Theorem agent_never_answers (X : externals) (llm : agent_llm) (fuel : nat)
    (userInput : string) (s : state) :
  process X llm (class_manager X fuel) userInput s =
    match _getOrCreateCollection X fuel (processing userInput s) with
    | Throw e s' => Throw e s'
    | _ => Diverge
    end.
Proof.
  unfold process. unfold bind at 1. unfold log at 1.
  fold (processing userInput s). simpl tm_getAvailableTools.
  rewrite bind_stuck by apply getAvailableTools_no_return.
  rewrite getAvailableTools_stuck.
  destruct (_getOrCreateCollection X fuel (processing userInput s)); reflexivity.
Qed.

(** X24. Every way _getOrCreateCollection can end, whatever depth the
    stack allows; it never returns. With a cached handle it runs out of
    stack at once and raises the RangeError, the state untouched. Without
    a handle and without an embedding function it throws the configuration
    error, having done nothing. When the connection fails it throws one
    fixed message, the message of the store going to the log only, and the
    handle stays unset. When the connection succeeds it caches the handle,
    logs the connection, and then raises the RangeError. *)
Theorem initialisation_outcomes (X : externals) (fuel : nat) (s : state) :
  _getOrCreateCollection X fuel s =
    match collection s, embedder X, fault X (length (trace s)) with
    | Some _, _, _ => Throw stack_overflow s
    | None, None, _ => Throw no_embedder_error s
    | None, Some _, Some msg =>
        Throw "Could not connect to or create ChromaDB collection."
          (push_log ERROR ("Error connecting to ChromaDB: " +:+ msg)
             (push_call (CConnect COLLECTION_NAME) s))
    | None, Some _, None => Throw stack_overflow (connected_state s)
    end.
Proof. apply getOrCreateCollection_table. Qed.

(** ** The claims about what follows the handshake

    The two statements below are about the statements of a method that
    follow its first [await]; [init] stands for that first step, the call
    of [this._getOrCreateCollection()]. *)




